(** * gotify-webhook-mqtt: the MQTT forwarding plugin (plugin.go)

    A shallow embedding of [plugin.go]: the plugin instance is a record,
    its methods are computations in a small state monad that also records
    the calls made to the collaborators (hub delivery, broker client,
    mutex, logger) and that distinguishes a normal return from a Go
    run-time panic. *)

From Stdlib Require Import ZArith List String Ascii Bool Lia DecimalString.
Import ListNotations.

Open Scope string_scope.
Open Scope list_scope.
Open Scope Z_scope.

(** ** Strings and formatting *)

(** [s[n:]] *)
Fixpoint drop (n : nat) (s : string) : string :=
  match n, s with
  | O, _ => s
  | S n', String _ s' => drop n' s'
  | S _, EmptyString => EmptyString
  end.

(** [s[n]], for [n < len(s)] *)
Definition byte_at (n : nat) (s : string) : option ascii := String.get n s.

Definition code (c : ascii) : Z := Z.of_N (N_of_ascii c).

(** The [%d] verb of [fmt]. *)
Definition fmt_d (z : Z) : string := NilZero.string_of_int (Z.to_int z).

(** Go's [int] and [time.Duration] are 64-bit two's complement. *)
Definition wrap64 (z : Z) : Z := (z + 2 ^ 63) mod 2 ^ 64 - 2 ^ 63.

(** ** The address parser of Go's [net] package

    [net.ParseIP] belongs to the Go standard library, not to the plugin.
    It is modelled after its classic implementation ([dtoi], [xtoi],
    [parseIPv4], [parseIPv6]).  The sixteen bytes of the result are built
    left to right, and the expansion of [::] is done once at the end. *)
Module net.

Definition big : Z := 16777215.
Definition IPv4len : nat := 4.
Definition IPv6len : nat := 16.

Definition IP := list Z.

Definition is_dec (c : ascii) : bool := (48 <=? code c) && (code c <=? 57).

Fixpoint dtoi_from (s : string) (n : Z) (i : nat) : Z * nat * bool :=
  match s with
  | String c s' =>
      if is_dec c then
        let n' := n * 10 + (code c - 48) in
        if big <=? n' then (big, i, false) else dtoi_from s' n' (S i)
      else
        match i with O => (0, O, false) | _ => (n, i, true) end
  | EmptyString =>
      match i with O => (0, O, false) | _ => (n, i, true) end
  end.

(** Decimal to integer: number, characters consumed, success. *)
Definition dtoi (s : string) : Z * nat * bool := dtoi_from s 0 O.

Definition hex_val (c : ascii) : option Z :=
  let k := code c in
  if (48 <=? k) && (k <=? 57) then Some (k - 48)
  else if (97 <=? k) && (k <=? 102) then Some (k - 97 + 10)
  else if (65 <=? k) && (k <=? 70) then Some (k - 65 + 10)
  else None.

Fixpoint xtoi_from (s : string) (n : Z) (i : nat) : Z * nat * bool :=
  match s with
  | String c s' =>
      match hex_val c with
      | Some d =>
          let n' := n * 16 + d in
          if big <=? n' then (0, i, false) else xtoi_from s' n' (S i)
      | None =>
          match i with O => (0, O, false) | _ => (n, i, true) end
      end
  | EmptyString =>
      match i with O => (0, O, false) | _ => (n, i, true) end
  end.

(** Hexadecimal to integer: number, characters consumed, success. *)
Definition xtoi (s : string) : Z * nat * bool := xtoi_from s 0 O.

Definition is_char (c : ascii) (o : option ascii) : bool :=
  match o with
  | Some c' => Ascii.eqb c c'
  | None => false
  end.

(** The loop of [parseIPv4]: [i] is the index of the field being read,
    [k] the number of fields still to read, [p] the bytes read so far. *)
Fixpoint parseIPv4_loop (k : nat) (i : nat) (s : string) (p : list Z)
  : option (list Z * string) :=
  match k with
  | O => Some (p, s)
  | S k' =>
      if (String.length s =? 0)%nat then None
      else if negb (i =? 0)%nat && negb (is_char "." (byte_at 0 s)) then None
      else
        let s1 := if (i =? 0)%nat then s else drop 1 s in
        let '(n, c, ok) := dtoi s1 in
        if negb ok || (255 <? n) then None
        else if (1 <? c)%nat && is_char "0" (byte_at 0 s1) then None
        else parseIPv4_loop k' (S i) (drop c s1) (p ++ [n])
  end.

Definition v4InV6Prefix : list Z := [0; 0; 0; 0; 0; 0; 0; 0; 0; 0; 255; 255].

(** Parse IPv4 address (d.d.d.d). *)
Definition parseIPv4 (s : string) : option IP :=
  match parseIPv4_loop IPv4len O s [] with
  | Some (p, rest) =>
      if (String.length rest =? 0)%nat then Some (v4InV6Prefix ++ p) else None
  | None => None
  end.

(** The state of the loop of [parseIPv6] when it is left: bytes written,
    rest of the input, position of the ellipsis. *)
Definition v6state : Type := list Z * string * option nat.

Fixpoint parseIPv6_loop (fuel : nat) (s : string) (ip : list Z)
  (ellipsis : option nat) : option v6state :=
  match fuel with
  | O => Some (ip, s, ellipsis)
  | S fuel' =>
      let i := List.length ip in
      if negb (i <? IPv6len)%nat then Some (ip, s, ellipsis)
      else
        let '(n, c, ok) := xtoi s in
        if negb ok || (65535 <? n) then None
        else if (c <? String.length s)%nat && is_char "." (byte_at c s) then
          (* trailing IPv4 *)
          if (match ellipsis with None => true | Some _ => false end)
             && negb (i =? IPv6len - IPv4len)%nat then None
          else if (IPv6len <? i + IPv4len)%nat then None
          else
            match parseIPv4 s with
            | None => None
            | Some ip4 => Some (ip ++ skipn 12 ip4, "", ellipsis)
            end
        else
          let ip1 := ip ++ [Z.shiftr n 8; Z.land n 255] in
          let i1 := List.length ip1 in
          let s1 := drop c s in
          if (String.length s1 =? 0)%nat then Some (ip1, s1, ellipsis)
          else if negb (is_char ":" (byte_at 0 s1))
                  || (String.length s1 =? 1)%nat then None
          else
            let s2 := drop 1 s1 in
            if is_char ":" (byte_at 0 s2) then
              match ellipsis with
              | Some _ => None
              | None =>
                  let s3 := drop 1 s2 in
                  if (String.length s3 =? 0)%nat then Some (ip1, s3, Some i1)
                  else parseIPv6_loop fuel' s3 ip1 (Some i1)
              end
            else parseIPv6_loop fuel' s2 ip1 ellipsis
  end.

(** Expansion of the ellipsis: the bytes from [e] on move to the end. *)
Definition expand (ip : list Z) (e : nat) : IP :=
  firstn e ip ++ repeat 0 (IPv6len - List.length ip) ++ skipn e ip.

Definition parseIPv6_tail (st : v6state) : option IP :=
  let '(ip, s, ellipsis) := st in
  if negb (String.length s =? 0)%nat then None
  else if (List.length ip <? IPv6len)%nat then
    match ellipsis with
    | None => None
    | Some e => Some (expand ip e)
    end
  else
    match ellipsis with
    | Some _ => None
    | None => Some ip
    end.

Definition parseIPv6 (s : string) : option IP :=
  let leading := (2 <=? String.length s)%nat
                 && is_char ":" (byte_at 0 s) && is_char ":" (byte_at 1 s) in
  let s0 := if leading then drop 2 s else s in
  let ellipsis := if leading then Some O else None in
  if leading && (String.length s0 =? 0)%nat then Some (repeat 0 IPv6len)
  else
    match parseIPv6_loop 9 s0 [] ellipsis with
    | None => None
    | Some st => parseIPv6_tail st
    end.

(** The first [.] or [:] decides which parser runs. *)
Fixpoint ParseIP_scan (whole rest : string) : option IP :=
  match rest with
  | EmptyString => None
  | String c rest' =>
      if Ascii.eqb c "." then parseIPv4 whole
      else if Ascii.eqb c ":" then parseIPv6 whole
      else ParseIP_scan whole rest'
  end.

Definition ParseIP (s : string) : option IP := ParseIP_scan s s.

End net.

(** ** Data of the plugin and of its collaborators *)

(** A Go [error] is kept as the text of its [Error()]; [nil] is [None]. *)
Definition error : Type := option string.

(** MQTTConfig holds the configuration for the MQTT connection. *)
Record MQTTConfig : Type := mkConfig {
  IP : string;
  Port : Z;
  Username : string;
  Password : string;
  QoS : Z;
  Topic : string;
  KeepAlive : Z;
  Retain : bool
}.

(** [plugin.Message] of the hub's plugin API; only the text is read here. *)
Record Message : Type := mkMessage {
  msg_Message : string;
  msg_Title : string;
  msg_Priority : Z;
  msg_Extras : list (string * string)
}.

(** [plugin.MessageHandler]: the hub-delivery collaborator, by the result
    of its [SendMessage]. *)
Definition MessageHandler : Type := Message -> error.

(** The options the plugin sets on [mqtt.NewClientOptions()]. *)
Record ClientOptions : Type := mkOptions {
  opt_Servers : list string;
  opt_Username : string;
  opt_Password : string;
  opt_KeepAlive : Z
}.

(** [mqtt.Client], a black box with connect, publish, disconnect and a
    connection-state query: the handle remembers its options and whether
    the link is up. *)
Record Client : Type := mkClient {
  client_opts : ClientOptions;
  connected : bool
}.

(** MQTTPlugin defines the structure for the plugin.  [config] and
    [mqttClient] are a pointer and an interface value: [None] is [nil].
    [mu] is [true] while the mutex is held. *)
Record MQTTPlugin : Type := mkPlugin {
  config : option MQTTConfig;
  msgHandler : option MessageHandler;
  mqttClient : option Client;
  basePath : string;
  lastError : error;
  messageQueue : list Message;
  mu : bool
}.

Definition set_config (c : option MQTTConfig) (p : MQTTPlugin) : MQTTPlugin :=
  mkPlugin c (msgHandler p) (mqttClient p) (basePath p) (lastError p)
           (messageQueue p) (mu p).
Definition set_msgHandler (h : option MessageHandler) (p : MQTTPlugin) : MQTTPlugin :=
  mkPlugin (config p) h (mqttClient p) (basePath p) (lastError p)
           (messageQueue p) (mu p).
Definition set_mqttClient (c : option Client) (p : MQTTPlugin) : MQTTPlugin :=
  mkPlugin (config p) (msgHandler p) c (basePath p) (lastError p)
           (messageQueue p) (mu p).
Definition set_basePath (b : string) (p : MQTTPlugin) : MQTTPlugin :=
  mkPlugin (config p) (msgHandler p) (mqttClient p) b (lastError p)
           (messageQueue p) (mu p).
Definition set_lastError (e : error) (p : MQTTPlugin) : MQTTPlugin :=
  mkPlugin (config p) (msgHandler p) (mqttClient p) (basePath p) e
           (messageQueue p) (mu p).
Definition set_messageQueue (q : list Message) (p : MQTTPlugin) : MQTTPlugin :=
  mkPlugin (config p) (msgHandler p) (mqttClient p) (basePath p) (lastError p)
           q (mu p).
Definition set_mu (b : bool) (p : MQTTPlugin) : MQTTPlugin :=
  mkPlugin (config p) (msgHandler p) (mqttClient p) (basePath p) (lastError p)
           (messageQueue p) b.

(** The calls the plugin makes to its collaborators, in program order. *)
Inductive Event : Type :=
| EvSendMessage (m : Message)
| EvConnect (o : ClientOptions) (result : error)
| EvIsConnected (b : bool)
| EvPublish (topic : string) (qos : Z) (retained : bool) (payload : string)
| EvDisconnect (quiesce : Z)
| EvLock
| EvUnlock
| EvLog (line : string).

(** The argument of [ValidateAndSetConfig] is an [interface{}]. *)
Inductive any : Type :=
| AnyNil
| AnyConfigPtr (c : option MQTTConfig)
| AnyString (s : string)
| AnyInt (z : Z).

(** What the webhook handler hands to [c.JSON]. *)
Record Response : Type := mkResponse {
  resp_code : Z;
  resp_key : string;
  resp_value : string
}.

(** ** The monad of the methods

    A method takes the plugin instance and yields how it ended, the
    instance as it left it, and the calls it made.  A panic unwinds the
    method; [Blocked] is a [Lock] on a mutex that is already held. *)
Inductive outcome (A : Type) : Type :=
| Returned (a : A)
| Panicked (why : string)
| Blocked.
Arguments Returned {A} a.
Arguments Panicked {A} why.
Arguments Blocked {A}.

Definition M (A : Type) : Type :=
  MQTTPlugin -> outcome A * MQTTPlugin * list Event.

Definition ret {A} (a : A) : M A := fun p => (Returned a, p, []).

Definition bind {A B} (m : M A) (f : A -> M B) : M B :=
  fun p =>
    match m p with
    | (Returned a, p1, e1) =>
        match f a p1 with
        | (r, p2, e2) => (r, p2, e1 ++ e2)
        end
    | (Panicked w, p1, e1) => (Panicked w, p1, e1)
    | (Blocked, p1, e1) => (Blocked, p1, e1)
    end.

Notation "x <- m ;; k" := (bind m (fun x => k))
  (at level 61, m at next level, right associativity).
Notation "m ;;; k" := (bind m (fun _ => k))
  (at level 61, right associativity).

Definition gets {A} (f : MQTTPlugin -> A) : M A := fun p => (Returned (f p), p, []).
Definition modify (f : MQTTPlugin -> MQTTPlugin) : M unit :=
  fun p => (Returned tt, f p, []).
Definition emit (e : Event) : M unit := fun p => (Returned tt, p, [e]).
Definition panic {A} (why : string) : M A := fun p => (Panicked why, p, []).

Definition nil_deref : string :=
  "runtime error: invalid memory address or nil pointer dereference".

(** Reading through a pointer or calling through an interface value. *)
Definition deref {A} (f : MQTTPlugin -> option A) : M A :=
  fun p =>
    match f p with
    | Some a => (Returned a, p, [])
    | None => (Panicked nil_deref, p, [])
    end.

Fixpoint forM_ {A} (l : list A) (f : A -> M unit) : M unit :=
  match l with
  | [] => ret tt
  | a :: l' => f a ;;; forM_ l' f
  end.

(** [p.mu.Lock()] and [p.mu.Unlock()] *)
Definition Lock : M unit :=
  fun p => if mu p then (Blocked, p, []) else (Returned tt, set_mu true p, [EvLock]).

Definition Unlock : M unit :=
  fun p =>
    if mu p then (Returned tt, set_mu false p, [EvUnlock])
    else (Panicked "sync: unlock of unlocked mutex", p, []).

(** ** The broker client *)

Module mqtt.

(** [NewClient(opts)]: a handle that is not connected. *)
Definition NewClient (o : ClientOptions) : Client := mkClient o false.

(** [c.Connect()] followed by [token.Wait()]: whether the broker accepts
    is the environment's answer [result]; the link is up iff it is [nil]. *)
Definition Connect (result : error) : M error :=
  cl <- deref mqttClient ;;
  emit (EvConnect (client_opts cl) result) ;;;
  modify (set_mqttClient
            (Some (mkClient (client_opts cl)
                            (match result with None => true | Some _ => false end)))) ;;;
  ret result.

(** [c.IsConnected()] *)
Definition IsConnected : M bool :=
  cl <- deref mqttClient ;;
  emit (EvIsConnected (connected cl)) ;;;
  ret (connected cl).

(** [c.Publish(topic, qos, retained, payload)] followed by [token.Wait()];
    the outcome of the token is discarded by the caller. *)
Definition Publish (topic : string) (qos : Z) (retained : bool) (payload : string)
  : M unit :=
  _ <- deref mqttClient ;;
  emit (EvPublish topic qos retained payload).

(** [c.Disconnect(quiesce)] *)
Definition Disconnect (quiesce : Z) : M unit :=
  cl <- deref mqttClient ;;
  emit (EvDisconnect quiesce) ;;;
  modify (set_mqttClient (Some (mkClient (client_opts cl) false))).

End mqtt.

(** ** The methods of the plugin *)

(** NewGotifyPluginInstance initializes a new instance: [&MQTTPlugin{}]. *)
Definition NewGotifyPluginInstance : MQTTPlugin :=
  mkPlugin None None None "" None [] false.

(** [time.Duration(k) * time.Second], then the whole seconds that
    [SetKeepAlive] stores. *)
Definition keepAlive_seconds (k : Z) : Z :=
  Z.quot (wrap64 (k * 1000000000)) 1000000000.

Definition client_options (c : MQTTConfig) : ClientOptions :=
  mkOptions [(IP c ++ ":" ++ fmt_d (Port c))%string] (Username c) (Password c)
            (keepAlive_seconds (KeepAlive c)).

(** forwardToMQTT sends the message to the MQTT broker. *)
Definition forwardToMQTT (msg : Message) : M unit :=
  c <- deref config ;;
  mqtt.Publish (Topic c) (QoS c) (Retain c) (msg_Message msg).

(** The loop of [Enable] over the queue and the reset of the queue, the
    part of [Enable] that runs with the mutex held. *)
Definition drain : M unit :=
  q <- gets messageQueue ;;
  forM_ q forwardToMQTT ;;;
  modify (set_messageQueue []).

(** The test [p.mqttClient != nil && p.mqttClient.IsConnected()] and the
    two branches it selects, the part of the handler that runs with the
    mutex held. *)
Definition connection_test : M bool :=
  cl <- gets mqttClient ;;
  match cl with
  | None => ret false
  | Some _ => mqtt.IsConnected
  end.

Definition publish_or_queue (msg : Message) (up : bool) : M unit :=
  if up then forwardToMQTT msg
  else q <- gets messageQueue ;;
       modify (set_messageQueue (q ++ [msg])).

(** Enable establishes a connection to the MQTT broker using the
    installed config; [connect] is the broker's answer to this attempt. *)
Definition Enable (connect : error) : M error :=
  c <- deref config ;;
  modify (set_mqttClient (Some (mqtt.NewClient (client_options c)))) ;;;
  tokenErr <- mqtt.Connect connect ;;
  match tokenErr with
  | Some e =>
      let err := ("Failed to connect to MQTT Broker: " ++ e)%string in
      modify (set_lastError (Some err)) ;;;
      emit (EvLog err) ;;;
      ret (Some err)
  | None =>
      (* Resend messages that might have been queued during a disconnect *)
      Lock ;;;
      drain ;;;
      Unlock ;;;
      emit (EvLog "Successfully connected to MQTT Broker") ;;;
      ret None
  end.

(** Disable disconnects from the MQTT broker. *)
Definition Disable : M error :=
  mqtt.Disconnect 250 ;;;
  ret None.

(** SetMessageHandler sets the message handler for the plugin. *)
Definition SetMessageHandler (h : option MessageHandler) : M unit :=
  modify (set_msgHandler h).

(** RegisterWebhook stores the base path; the route it registers is
    [webhookHandler]. *)
Definition RegisterWebhook (base : string) : M unit :=
  modify (set_basePath base).

(** The handler of [POST /message].  [body] is the result of
    [c.BindJSON(&msg)]: [None] when the body does not parse. *)
Definition webhookHandler (body : option Message) : M Response :=
  match body with
  | None => ret (mkResponse 400 "error" "Failed to parse message")
  | Some msg =>
      (* Send the message to Gotify first *)
      h <- deref msgHandler ;;
      emit (EvSendMessage msg) ;;;
      match h msg with
      | Some _ => ret (mkResponse 500 "error" "Failed to send message to Gotify")
      | None =>
          (* Then forward the message to MQTT or queue it if not connected *)
          Lock ;;;
          up <- connection_test ;;
          publish_or_queue msg up ;;;
          Unlock ;;;
          ret (mkResponse 200 "status" "Message forwarded to MQTT and Gotify")
      end
  end.

(** GetDisplay provides a display message for the plugin's UI; [location]
    is the text of the URL, [None] for a nil pointer. *)
Definition GetDisplay (location : option string) : M string :=
  e <- gets lastError ;;
  loc <- deref (fun _ => location) ;;
  base <- gets basePath ;;
  match e with
  | Some err =>
      ret ("Error: " ++ err ++ String "010" (String "010" "")
           ++ "Send messages to " ++ loc ++ base
           ++ "message to forward them to MQTT.")%string
  | None =>
      ret ("Send messages to " ++ loc ++ base
           ++ "message to forward them to MQTT.")%string
  end.

(** DefaultConfig provides the default configuration for the MQTT plugin. *)
Definition DefaultConfig : MQTTConfig :=
  mkConfig "127.0.0.1" 1883 "" "" 0 "gotify/messages" 60 false.

Definition type_assertion : string :=
  "interface conversion: interface {} is not *main.MQTTConfig".

(** ValidateAndSetConfig validates the provided configuration and sets it
    for the plugin. *)
Definition ValidateAndSetConfig (conf : any) : M error :=
  match conf with
  | AnyConfigPtr ptr =>
      cfg <- deref (fun _ => ptr) ;;
      (* Validate IP *)
      match net.ParseIP (IP cfg) with
      | None => ret (Some ("invalid IP address: " ++ IP cfg)%string)
      | Some _ =>
          (* Validate port *)
          if (Port cfg <? 1) || (65535 <? Port cfg)
          then ret (Some ("port out of range: " ++ fmt_d (Port cfg))%string)
          (* Validate KeepAlive *)
          else if KeepAlive cfg <? 0
          then ret (Some ("invalid KeepAlive value: " ++ fmt_d (KeepAlive cfg))%string)
          else modify (set_config (Some cfg)) ;;; ret None
      end
  | _ => panic type_assertion
  end.

(** ** Observations on a run *)

Definition result_of {A} (r : outcome A * MQTTPlugin * list Event) : outcome A :=
  fst (fst r).
Definition state_of {A} (r : outcome A * MQTTPlugin * list Event) : MQTTPlugin :=
  snd (fst r).
Definition events_of {A} (r : outcome A * MQTTPlugin * list Event) : list Event :=
  snd r.

Definition is_publish (e : Event) : bool :=
  match e with
  | EvPublish _ _ _ _ => true
  | _ => false
  end.

(** The calls to the broker client's [Publish], in order. *)
Definition publishes (evs : list Event) : list Event := filter is_publish evs.

(** The publish that [forwardToMQTT] makes for [msg] under config [c]. *)
Definition publish_of (c : MQTTConfig) (msg : Message) : Event :=
  EvPublish (Topic c) (QoS c) (Retain c) (msg_Message msg).

(** What the handler's test [p.mqttClient != nil && p.mqttClient.IsConnected()]
    evaluates to, and the query it makes on the way. *)
Definition isConnected (p : MQTTPlugin) : bool :=
  match mqttClient p with
  | Some cl => connected cl
  | None => false
  end.

Definition check_events (p : MQTTPlugin) : list Event :=
  match mqttClient p with
  | Some cl => [EvIsConnected (connected cl)]
  | None => []
  end.

Definition ok200 : Response :=
  mkResponse 200 "status" "Message forwarded to MQTT and Gotify".
Definition err400 : Response := mkResponse 400 "error" "Failed to parse message".
Definition err500 : Response :=
  mkResponse 500 "error" "Failed to send message to Gotify".

(** Inbound requests served one after the other. *)
Fixpoint serve (bodies : list (option Message)) : M (list Response) :=
  match bodies with
  | [] => ret []
  | b :: bs =>
      r <- webhookHandler b ;;
      rs <- serve bs ;;
      ret (r :: rs)
  end.

(** The events of one request that passes parsing and hub delivery while
    the broker link is down. *)
Definition queued_events (p : MQTTPlugin) (msg : Message) : list Event :=
  [EvSendMessage msg; EvLock] ++ check_events p ++ [EvUnlock].

(** The protocol the host follows, as far as the plugin's own state shows
    it: the mutex is free between calls, and a client handle exists only
    once a configuration was installed. *)
Definition Inv (p : MQTTPlugin) : Prop :=
  mu p = false /\ (mqttClient p <> None -> config p <> None).

(** An operation completes: it returns to its caller, and the instance
    it leaves behind again satisfies [Inv]. *)
Definition completes {A} (m : M A) (p : MQTTPlugin) : Prop :=
  exists a p' evs, m p = (Returned a, p', evs) /\ Inv p'.

(** The configuration invariant of the data model, in the spec's words:
    a syntactically valid address, a port in [1,65535], a keep-alive
    that is not negative. *)
Definition valid_config (c : MQTTConfig) : bool :=
  match net.ParseIP (IP c) with Some _ => true | None => false end
  && (1 <=? Port c) && (Port c <=? 65535) && (0 <=? KeepAlive c).

(** The error [ValidateAndSetConfig] reports for a configuration that is
    not valid: the first check that fails. *)
Definition validation_error (c : MQTTConfig) : string :=
  match net.ParseIP (IP c) with
  | None => ("invalid IP address: " ++ IP c)%string
  | Some _ =>
      if (Port c <? 1) || (65535 <? Port c)
      then ("port out of range: " ++ fmt_d (Port c))%string
      else ("invalid KeepAlive value: " ++ fmt_d (KeepAlive c))%string
  end.

(** The lifecycle calls of the host. *)
Inductive LifecycleOp : Type :=
| OpEnable (connect : error)
| OpDisable.

Definition lifecycle_step (op : LifecycleOp) : M error :=
  match op with
  | OpEnable connect => Enable connect
  | OpDisable => Disable
  end.

(** What the host does with a call that panicked: with [recover] it
    catches the panic and goes on with the next call, on the instance as
    the panic left it; without, the run ends there.  A call that blocks
    ends the run. *)
Definition guarded {A} (recover : bool) (m : M A) : M unit :=
  fun p =>
    match m p with
    | (Returned _, p1, e1) => (Returned tt, p1, e1)
    | (Panicked w, p1, e1) =>
        if recover then (Returned tt, p1, e1) else (Panicked w, p1, e1)
    | (Blocked, p1, e1) => (Blocked, p1, e1)
    end.

Fixpoint lifecycle (recover : bool) (ops : list LifecycleOp) : M unit :=
  match ops with
  | [] => ret tt
  | op :: ops' => guarded recover (lifecycle_step op) ;;; lifecycle recover ops'
  end.

(** Every call the host can make on the instance. *)
Inductive Call : Type :=
| CallValidateAndSetConfig (conf : any)
| CallEnable (connect : error)
| CallDisable
| CallSetMessageHandler (h : option MessageHandler)
| CallRegisterWebhook (base : string)
| CallRequest (body : option Message)
| CallGetDisplay (location : option string).

Definition perform (call : Call) : M unit :=
  match call with
  | CallValidateAndSetConfig conf => guarded false (ValidateAndSetConfig conf)
  | CallEnable connect => guarded false (Enable connect)
  | CallDisable => guarded false Disable
  | CallSetMessageHandler h => SetMessageHandler h
  | CallRegisterWebhook base => RegisterWebhook base
  | CallRequest body => guarded false (webhookHandler body)
  | CallGetDisplay location => guarded false (GetDisplay location)
  end.

(** The two texts of [GetDisplay]. *)
Definition usage (loc base : string) : string :=
  ("Send messages to " ++ loc ++ base ++ "message to forward them to MQTT.")%string.

Definition display_with_error (err loc base : string) : string :=
  ("Error: " ++ err ++ String "010" (String "010" "") ++ usage loc base)%string.

(** The handle [Enable] leaves in [mqttClient], and the error it builds
    from the connect error [e]. *)
Definition connected_client (c : MQTTConfig) (up : bool) : option Client :=
  Some (mkClient (client_options c) up).

Definition connect_failure (e : string) : string :=
  ("Failed to connect to MQTT Broker: " ++ e)%string.

(** ** Requests served concurrently

    Each request runs in a goroutine of its own.  Once its message is
    delivered to the hub, a handler goes through four atomic steps: take
    the mutex, test the connection, publish or append, release the mutex.
    The drain of [Enable] goes through three.  Everything else the
    methods do (installing a config, replacing or connecting or
    disconnecting the client handle, storing the last error) happens
    outside the mutex and can fall between any two steps. *)
Inductive thread : Type :=
| WaitHandle (msg : Message)
| Testing (msg : Message)
| Acting (msg : Message) (up : bool)
| WaitDrain
| Draining
| Releasing
| Finished.

Definition thread_step (t : thread) : M thread :=
  match t with
  | WaitHandle msg => Lock ;;; ret (Testing msg)
  | Testing msg => up <- connection_test ;; ret (Acting msg up)
  | Acting msg up => publish_or_queue msg up ;;; ret Releasing
  | WaitDrain => Lock ;;; ret Draining
  | Draining => drain ;;; ret Releasing
  | Releasing => Unlock ;;; ret Finished
  | Finished => ret Finished
  end.

(** The thread is between its [Lock] and its [Unlock]. *)
Definition holds (t : thread) : bool :=
  match t with
  | Testing _ | Acting _ _ | Draining | Releasing => true
  | WaitHandle _ | WaitDrain | Finished => false
  end.

Definition waiting (t : thread) : Prop :=
  match t with
  | WaitHandle _ | WaitDrain => True
  | _ => False
  end.

Definition holders (ths : list thread) : nat :=
  List.length (filter holds ths).

Definition weight (t : thread) : nat := if holds t then 1%nat else 0%nat.

Fixpoint upd {A} (i : nat) (x : A) (l : list A) : list A :=
  match l, i with
  | [], _ => []
  | _ :: l', O => x :: l'
  | y :: l', S i' => y :: upd i' x l'
  end.

Record system : Type := mkSystem {
  shared : MQTTPlugin;
  threads : list thread
}.

(** One step of the whole: a thread that is not blocked makes its next
    step, or something outside the mutex changes a field other than the
    queue and the mutex. *)
Inductive sys_step (s : system) : system -> Prop :=
| step_thread (i : nat) (t t' : thread) (p' : MQTTPlugin) (evs : list Event) :
    nth_error (threads s) i = Some t ->
    t <> Finished ->
    thread_step t (shared s) = (Returned t', p', evs) ->
    sys_step s (mkSystem p' (upd i t' (threads s)))
| step_outside (p' : MQTTPlugin) :
    messageQueue p' = messageQueue (shared s) ->
    mu p' = mu (shared s) ->
    sys_step s (mkSystem p' (threads s)).

Inductive reachable : system -> Prop :=
| reach_init (p : MQTTPlugin) (ths : list thread) :
    mu p = false -> Forall waiting ths -> reachable (mkSystem p ths)
| reach_step (s s' : system) :
    reachable s -> sys_step s s' -> reachable s'.

(** ** Whole runs of the plugin

    A run is a sequence of calls by the host, between which the broker
    link may drop.  The client handle is the black box of [mqtt]: in a
    run its link comes up through [Connect] only. *)
Inductive Step : Type :=
| StepCall (call : Call)
| StepLinkDown.

Definition link_down : M unit :=
  cl <- gets mqttClient ;;
  match cl with
  | Some c => modify (set_mqttClient (Some (mkClient (client_opts c) false)))
  | None => ret tt
  end.

Definition do_step (st : Step) : M unit :=
  match st with
  | StepCall call => perform call
  | StepLinkDown => link_down
  end.

(** The steps one after the other; the run ends at the first call that
    does not return. *)
Definition play (steps : list Step) : M unit := forM_ steps do_step.

(** The message a step hands over to the plugin: the body of a request
    that parses and that the hub accepts. *)
Definition accepted_by (st : Step) (p : MQTTPlugin) : list Message :=
  match st with
  | StepCall (CallRequest (Some m)) =>
      match msgHandler p with
      | Some h => match h m with None => [m] | Some _ => [] end
      | None => []
      end
  | _ => []
  end.

(** The messages handed over in the course of a run, in arrival order. *)
Fixpoint accepted (steps : list Step) (p : MQTTPlugin) : list Message :=
  match steps with
  | [] => []
  | st :: rest =>
      match do_step st p with
      | (Returned _, p1, _) => accepted_by st p ++ accepted rest p1
      | _ => []
      end
  end.

(** The payloads of the [Publish] calls among [evs], in order. *)
Fixpoint payloads (evs : list Event) : list string :=
  match evs with
  | [] => []
  | EvPublish _ _ _ payload :: evs' => payload :: payloads evs'
  | _ :: evs' => payloads evs'
  end.

(** Between calls: [Inv], and with the link up nothing is waiting. *)
Definition Settled (p : MQTTPlugin) : Prop :=
  Inv p /\ (isConnected p = true -> messageQueue p = []).

(** What the plugin API lets the host do in state [p]. *)
Definition permitted (st : Step) (p : MQTTPlugin) : Prop :=
  match st with
  | StepCall (CallValidateAndSetConfig conf) =>
      exists cfg, conf = AnyConfigPtr (Some cfg)
  | StepCall (CallEnable _) => config p <> None
  | StepCall CallDisable => mqttClient p <> None
  | StepCall (CallRequest _) => msgHandler p <> None
  | StepCall (CallGetDisplay location) => location <> None
  | _ => True
  end.

Fixpoint all_permitted (steps : list Step) (p : MQTTPlugin) : Prop :=
  match steps with
  | [] => True
  | st :: rest => permitted st p /\ all_permitted rest (state_of (do_step st p))
  end.

(** The installed configuration, if there is one, is valid. *)
Definition config_ok (p : MQTTPlugin) : Prop :=
  match config p with
  | Some c => valid_config c = true
  | None => True
  end.

(** The argument of [SetKeepAlive]: [time.Duration(k) * time.Second],
    in nanoseconds. *)
Definition keepAlive_duration (k : Z) : Z := wrap64 (k * 1000000000).

(** The messages handed to the hub's [SendMessage] among [evs]. *)
Fixpoint sends (evs : list Event) : list Message :=
  match evs with
  | [] => []
  | EvSendMessage m :: evs' => m :: sends evs'
  | _ :: evs' => sends evs'
  end.

(** The answer of the handler as the request and the hub decide it. *)
Definition response_for (h : MessageHandler) (body : option Message) : Response :=
  match body with
  | None => err400
  | Some m => match h m with Some _ => err500 | None => ok200 end
  end.

(** The events of one request that is published at once. *)
Definition published_events (c : MQTTConfig) (msg : Message) : list Event :=
  [EvSendMessage msg; EvLock; EvIsConnected true; publish_of c msg; EvUnlock].

Definition is_disconnect (e : Event) : bool :=
  match e with
  | EvDisconnect _ => true
  | _ => false
  end.

Definition is_connect (e : Event) : bool :=
  match e with
  | EvConnect _ _ => true
  | _ => false
  end.

(** Whether [s] contains a dot or a colon. *)
Fixpoint has_dot_or_colon (s : string) : bool :=
  match s with
  | EmptyString => false
  | String c s' => Ascii.eqb c "." || Ascii.eqb c ":" || has_dot_or_colon s'
  end.

(** The usual text of an IPv4 address: four decimal numbers without
    leading zeros, separated by dots. *)
Definition dotted (a b c d : Z) : string :=
  (fmt_d a ++ String "." (fmt_d b ++ String "." (fmt_d c ++ String "." (fmt_d d))))%string.

(** Several steps of the whole, with the calls the threads make on the
    way, in the order in which they are made. *)
Inductive sys_steps : system -> list Event -> system -> Prop :=
| steps_done (s : system) : sys_steps s [] s
| steps_thread (s s' : system) (i : nat) (t t' : thread) (p' : MQTTPlugin)
    (evs rest : list Event) :
    nth_error (threads s) i = Some t ->
    t <> Finished ->
    thread_step t (shared s) = (Returned t', p', evs) ->
    sys_steps (mkSystem p' (upd i t' (threads s))) rest s' ->
    sys_steps s (evs ++ rest) s'
| steps_outside (s s' : system) (p' : MQTTPlugin) (rest : list Event) :
    messageQueue p' = messageQueue (shared s) ->
    mu p' = mu (shared s) ->
    sys_steps (mkSystem p' (threads s)) rest s' ->
    sys_steps s rest s'.

(** ** Basic facts about the monad and the record *)

Lemma set_messageQueue_same (p : MQTTPlugin) :
  set_messageQueue (messageQueue p) p = p.
Proof. destruct p; reflexivity. Qed.

Lemma publishes_app (a b : list Event) :
  publishes (a ++ b) = publishes a ++ publishes b.
Proof. apply filter_app. Qed.

Lemma publishes_map_publish_of (c : MQTTConfig) (q : list Message) :
  publishes (map (publish_of c) q) = map (publish_of c) q.
Proof.
  unfold publishes.
  induction q as [|m q IH]; simpl; [reflexivity|].
  now rewrite IH.
Qed.

Lemma publishes_check_events (p : MQTTPlugin) : publishes (check_events p) = [].
Proof. unfold check_events. now destruct (mqttClient p). Qed.

(** The drain loop: with a config and a client handle in place every
    queued message costs one [Publish], and the instance is not touched. *)
Lemma forM_forwardToMQTT (q : list Message) (p : MQTTPlugin) (c : MQTTConfig) (cl : Client) :
  config p = Some c ->
  mqttClient p = Some cl ->
  forM_ q forwardToMQTT p = (Returned tt, p, map (publish_of c) q).
Proof.
  intros Hc Hcl. induction q as [|m q IH]; simpl.
  - reflexivity.
  - unfold bind at 1. unfold forwardToMQTT at 1, mqtt.Publish, bind, deref, emit.
    rewrite Hc, Hcl. simpl. rewrite IH. reflexivity.
Qed.

(** The address parser on the addresses of the spec and on some others. *)
Example ParseIP_dotted :
  net.ParseIP "10.0.0.5" = Some [0; 0; 0; 0; 0; 0; 0; 0; 0; 0; 255; 255; 10; 0; 0; 5]
  /\ net.ParseIP "127.0.0.1" <> None
  /\ net.ParseIP "999.999.999.999" = None
  /\ net.ParseIP "10.0.0" = None
  /\ net.ParseIP "10.0.0.5.6" = None
  /\ net.ParseIP "010.0.0.5" = None
  /\ net.ParseIP "localhost" = None
  /\ net.ParseIP "" = None.
Proof. repeat split; try reflexivity; discriminate. Qed.

Example ParseIP_colons :
  net.ParseIP "::1" = Some [0; 0; 0; 0; 0; 0; 0; 0; 0; 0; 0; 0; 0; 0; 0; 1]
  /\ net.ParseIP "2001:db8::1"
     = Some [32; 1; 13; 184; 0; 0; 0; 0; 0; 0; 0; 0; 0; 0; 0; 1]
  /\ net.ParseIP "::ffff:1.2.3.4"
     = Some [0; 0; 0; 0; 0; 0; 0; 0; 0; 0; 255; 255; 1; 2; 3; 4]
  /\ net.ParseIP "1::2::3" = None
  /\ net.ParseIP "1:2:3:4:5:6:7:8:9" = None
  /\ net.ParseIP "fe80::1%eth0" = None.
Proof. repeat split; reflexivity. Qed.

(** ** The operations, case by case *)

Ltac unfold_ops :=
  unfold webhookHandler, Enable, Disable, GetDisplay, ValidateAndSetConfig,
    drain, connection_test, publish_or_queue,
    forwardToMQTT, mqtt.Connect, mqtt.IsConnected, mqtt.Publish,
    mqtt.Disconnect, mqtt.NewClient, Lock, Unlock,
    bind, ret, gets, modify, emit, deref, panic.

(** Event lists up to the empty lists that [ret] contributes. *)
Ltac tidy_events :=
  simpl; repeat (rewrite app_nil_r || rewrite <- app_assoc); simpl;
  try reflexivity.

(** A request that parses and is delivered to the hub while the broker
    link is down (no handle, or a handle that is not connected). *)
Lemma webhookHandler_queue (p : MQTTPlugin) (h : MessageHandler) (msg : Message) :
  msgHandler p = Some h -> h msg = None ->
  mu p = false -> isConnected p = false ->
  webhookHandler (Some msg) p
  = (Returned ok200, set_messageQueue (messageQueue p ++ [msg]) p,
     queued_events p msg).
Proof.
  intros Hh Hm Hmu Hc.
  destruct p as [cfg mh cl bp le q m]; simpl in *; subst.
  unfold isConnected in Hc; simpl in Hc.
  unfold queued_events, check_events; simpl.
  unfold_ops; simpl. rewrite Hm. simpl.
  destruct cl as [cl|]; simpl.
  - rewrite Hc. reflexivity.
  - reflexivity.
Qed.

(** A request that parses and is delivered to the hub while the broker
    link is up. *)
Lemma webhookHandler_publish (p : MQTTPlugin) (h : MessageHandler) (msg : Message)
  (c : MQTTConfig) :
  msgHandler p = Some h -> h msg = None ->
  mu p = false -> isConnected p = true -> config p = Some c ->
  webhookHandler (Some msg) p
  = (Returned ok200, p,
     [EvSendMessage msg; EvLock; EvIsConnected true; publish_of c msg; EvUnlock]).
Proof.
  intros Hh Hm Hmu Hc Hcfg.
  destruct p as [cfg mh cl bp le q m]; simpl in *; subst.
  unfold isConnected in Hc; simpl in Hc.
  destruct cl as [cl|]; [|discriminate].
  unfold_ops; simpl. rewrite Hm. simpl. rewrite Hc. reflexivity.
Qed.

(** A request whose hub delivery fails. *)
Lemma webhookHandler_delivery_error (p : MQTTPlugin) (h : MessageHandler)
  (msg : Message) (e : string) :
  msgHandler p = Some h -> h msg = Some e ->
  webhookHandler (Some msg) p = (Returned err500, p, [EvSendMessage msg]).
Proof.
  intros Hh Hm. unfold_ops. rewrite Hh. simpl. rewrite Hm. reflexivity.
Qed.

(** [Enable] when the broker accepts the connection. *)
Lemma Enable_success (p : MQTTPlugin) (c : MQTTConfig) :
  config p = Some c -> mu p = false ->
  Enable None p
  = (Returned None,
     set_messageQueue [] (set_mqttClient (connected_client c true) p),
     [EvConnect (client_options c) None; EvLock]
       ++ map (publish_of c) (messageQueue p)
       ++ [EvUnlock; EvLog "Successfully connected to MQTT Broker"]).
Proof.
  intros Hc Hmu.
  destruct p as [cfg mh cl bp le q m]; simpl in *; subst.
  unfold Enable, drain, mqtt.Connect, mqtt.NewClient, Lock, Unlock,
    bind, ret, gets, modify, emit, deref; simpl.
  rewrite (forM_forwardToMQTT q _ c (mkClient (client_options c) true))
    by reflexivity.
  simpl. rewrite <- ?app_assoc. reflexivity.
Qed.

(** [Enable] when the connection attempt fails with [e]. *)
Lemma Enable_failure (p : MQTTPlugin) (c : MQTTConfig) (e : string) :
  config p = Some c ->
  Enable (Some e) p
  = (Returned (Some (connect_failure e)),
     set_lastError (Some (connect_failure e))
       (set_mqttClient (connected_client c false) p),
     [EvConnect (client_options c) (Some e); EvLog (connect_failure e)]).
Proof.
  intros Hc. destruct p as [cfg mh cl bp le q m]; simpl in *; subst.
  reflexivity.
Qed.

(** [Enable] before any configuration was installed. *)
Lemma Enable_no_config (p : MQTTPlugin) (connect : error) :
  config p = None -> Enable connect p = (Panicked nil_deref, p, []).
Proof. intros Hc. unfold Enable, bind, deref. now rewrite Hc. Qed.

(** [Enable] while the mutex is held: the drain does not start. *)
Lemma Enable_locked (p : MQTTPlugin) (c : MQTTConfig) :
  config p = Some c -> mu p = true ->
  Enable None p
  = (Blocked, set_mqttClient (connected_client c true) p,
     [EvConnect (client_options c) None]).
Proof.
  intros Hc Hmu. destruct p as [cfg mh cl bp le q m]; simpl in *; subst.
  reflexivity.
Qed.

Lemma Disable_client (p : MQTTPlugin) (cl : Client) :
  mqttClient p = Some cl ->
  Disable p
  = (Returned None, set_mqttClient (Some (mkClient (client_opts cl) false)) p,
     [EvDisconnect 250]).
Proof.
  intros Hcl. unfold Disable, mqtt.Disconnect, bind, deref, emit, modify, ret.
  rewrite Hcl. reflexivity.
Qed.

Lemma Disable_nil_client (p : MQTTPlugin) :
  mqttClient p = None -> Disable p = (Panicked nil_deref, p, []).
Proof.
  intros Hcl. unfold Disable, mqtt.Disconnect, bind, deref.
  now rewrite Hcl.
Qed.

(** [Disable] never touches the queue, the config or the last error, and
    publishes nothing, however it ends. *)
Lemma Disable_frame (p : MQTTPlugin) :
  messageQueue (state_of (Disable p)) = messageQueue p
  /\ config (state_of (Disable p)) = config p
  /\ mu (state_of (Disable p)) = mu p
  /\ lastError (state_of (Disable p)) = lastError p
  /\ publishes (events_of (Disable p)) = [].
Proof.
  destruct (mqttClient p) as [cl|] eqn:Hcl.
  - rewrite (Disable_client p cl Hcl). destruct p; repeat split.
  - rewrite (Disable_nil_client p Hcl). repeat split.
Qed.

Lemma webhookHandler_locked (p : MQTTPlugin) (h : MessageHandler) (msg : Message) :
  msgHandler p = Some h -> h msg = None -> mu p = true ->
  webhookHandler (Some msg) p = (Blocked, p, [EvSendMessage msg]).
Proof.
  intros Hh Hm Hmu. unfold_ops. rewrite Hh. simpl. rewrite Hm, Hmu. reflexivity.
Qed.

Lemma webhookHandler_parse_error (p : MQTTPlugin) :
  webhookHandler None p = (Returned err400, p, []).
Proof. reflexivity. Qed.

(** Requests served while the link is down pile up in arrival order. *)
Lemma serve_queue (msgs : list Message) :
  forall (p : MQTTPlugin) (h : MessageHandler),
    msgHandler p = Some h -> (forall m, In m msgs -> h m = None) ->
    mu p = false -> isConnected p = false ->
    serve (map Some msgs) p
    = (Returned (map (fun _ => ok200) msgs),
       set_messageQueue (messageQueue p ++ msgs) p,
       List.concat (map (queued_events p) msgs)).
Proof.
  induction msgs as [|m msgs IH]; intros p h Hh Hall Hmu Hc.
  - simpl. unfold ret. rewrite app_nil_r, set_messageQueue_same. reflexivity.
  - cbn [serve map]. unfold bind at 1.
    rewrite (webhookHandler_queue p h m Hh (Hall m (or_introl eq_refl)) Hmu Hc).
    unfold bind at 1.
    rewrite (IH (set_messageQueue (messageQueue p ++ [m]) p) h); try assumption.
    + unfold ret. cbn [List.concat map]. rewrite app_nil_r.
      replace (set_messageQueue
                 (messageQueue (set_messageQueue (messageQueue p ++ [m]) p) ++ msgs)
                 (set_messageQueue (messageQueue p ++ [m]) p))
        with (set_messageQueue (messageQueue p ++ m :: msgs) p)
        by (destruct p; simpl; now rewrite <- app_assoc).
      reflexivity.
    + intros m' Hin. apply Hall. now right.
Qed.

Lemma publishes_queued_events (p : MQTTPlugin) (msgs : list Message) :
  publishes (List.concat (map (queued_events p) msgs)) = [].
Proof.
  induction msgs as [|m msgs IH]; [reflexivity|].
  cbn [List.concat map]. unfold queued_events at 1.
  rewrite !publishes_app, publishes_check_events, IH.
  reflexivity.
Qed.

(** ** The mutex

    Run alone, the steps of a handler thread are the locked part of
    [webhookHandler], and the steps of a drain thread are the locked part
    of [Enable]. *)
Lemma webhookHandler_thread_steps (p : MQTTPlugin) (h : MessageHandler)
  (msg : Message) :
  msgHandler p = Some h -> h msg = None ->
  webhookHandler (Some msg) p
  = (emit (EvSendMessage msg) ;;;
     t1 <- thread_step (WaitHandle msg) ;;
     t2 <- thread_step t1 ;;
     t3 <- thread_step t2 ;;
     _ <- thread_step t3 ;;
     ret ok200) p.
Proof.
  intros Hh Hm.
  destruct p as [cfg mh cl bp le q m]; simpl in *; subst.
  unfold webhookHandler, thread_step, Lock, Unlock, bind, ret, emit, deref.
  simpl. rewrite Hm.
  destruct m; simpl; [reflexivity|].
  destruct (connection_test _) as [[[up|w|] p1] e1]; try reflexivity.
  destruct (publish_or_queue msg up p1) as [[[[]|w|] p2] e2]; tidy_events.
  destruct (mu p2); tidy_events.
Qed.

Lemma Enable_thread_steps (p : MQTTPlugin) (c : MQTTConfig) :
  config p = Some c ->
  Enable None p
  = (modify (set_mqttClient (Some (mqtt.NewClient (client_options c)))) ;;;
     _ <- mqtt.Connect None ;;
     t1 <- thread_step WaitDrain ;;
     t2 <- thread_step t1 ;;
     _ <- thread_step t2 ;;
     emit (EvLog "Successfully connected to MQTT Broker") ;;;
     ret None) p.
Proof.
  intros Hc.
  destruct p as [cfg mh cl bp le q m]; simpl in *; subst.
  unfold Enable, thread_step, mqtt.Connect, mqtt.NewClient, Lock, Unlock,
    bind, ret, emit, deref, modify.
  simpl.
  destruct m; simpl; [reflexivity|].
  destruct (drain _) as [[[[]|w|] p1] e1]; tidy_events.
  destruct (mu p1); tidy_events.
Qed.

Lemma forM_forwardToMQTT_state (q : list Message) (p : MQTTPlugin) :
  state_of (forM_ q forwardToMQTT p) = p.
Proof.
  induction q as [|m q IH]; [reflexivity|].
  cbn [forM_]. unfold bind at 1.
  unfold forwardToMQTT at 1, mqtt.Publish, bind, deref, emit.
  destruct (config p); [|reflexivity].
  destruct (mqttClient p); [|reflexivity].
  simpl. destruct (forM_ q forwardToMQTT p) as [[r p1] e1].
  exact IH.
Qed.

(** A step taken with the mutex held leaves the mutex held. *)
Lemma thread_step_inside (t t' : thread) (p p' : MQTTPlugin) (evs : list Event) :
  holds t = true -> t <> Releasing ->
  thread_step t p = (Returned t', p', evs) ->
  mu p' = mu p /\ holds t' = true.
Proof.
  intros Hh Hr Hs. destruct t; try discriminate; try (now contradiction Hr).
  - (* Testing *)
    destruct p as [cfg mh cl bp le q m].
    unfold thread_step, connection_test, mqtt.IsConnected,
      bind, gets, ret, deref, emit in Hs. simpl in Hs.
    destruct cl; simpl in Hs; injection Hs as <- <- _; split; reflexivity.
  - (* Acting *)
    destruct p as [cfg mh cl bp le q m].
    unfold thread_step, publish_or_queue, forwardToMQTT, mqtt.Publish,
      bind, gets, ret, deref, emit, modify in Hs. simpl in Hs.
    destruct up; simpl in Hs.
    + destruct cfg; [|discriminate]. destruct cl; [|discriminate].
      simpl in Hs. injection Hs as <- <- _; split; reflexivity.
    + injection Hs as <- <- _; split; reflexivity.
  - (* Draining *)
    unfold thread_step, drain, bind, gets, ret, modify in Hs.
    pose proof (forM_forwardToMQTT_state (messageQueue p) p) as Hst.
    destruct (forM_ (messageQueue p) forwardToMQTT p) as [[[[]|w|] p1] e1];
      try discriminate.
    cbn [state_of fst snd] in Hst. subst p1.
    injection Hs as <- <- _. destruct p; split; reflexivity.
Qed.

(** Taking the mutex needs it free, releasing it needs it held. *)
Lemma thread_step_lock (t t' : thread) (p p' : MQTTPlugin) (evs : list Event) :
  thread_step t p = (Returned t', p', evs) ->
  waiting t ->
  mu p = false /\ mu p' = true /\ holds t' = true.
Proof.
  intros Hs Hw. destruct t; try now contradiction Hw.
  all: unfold thread_step, Lock, bind, ret in Hs;
    destruct (mu p) eqn:Hmu; [discriminate|];
    injection Hs as <- <- _; destruct p; repeat split; assumption.
Qed.

Lemma thread_step_unlock (t' : thread) (p p' : MQTTPlugin) (evs : list Event) :
  thread_step Releasing p = (Returned t', p', evs) ->
  mu p = true /\ mu p' = false /\ t' = Finished
  /\ messageQueue p' = messageQueue p.
Proof.
  intros Hs. unfold thread_step, Unlock, bind, ret in Hs.
  destruct (mu p) eqn:Hmu; [|discriminate].
  injection Hs as <- <- _. destruct p; repeat split.
Qed.

Lemma thread_step_moves (t t' : thread) (p p' : MQTTPlugin) (evs : list Event) :
  t <> Finished -> thread_step t p = (Returned t', p', evs) -> t' <> t.
Proof.
  intros Hf Hs.
  destruct t; try now contradiction Hf.
  - destruct (thread_step_lock _ _ _ _ _ Hs I) as (_ & _ & Hh).
    intros ->. discriminate Hh.
  - unfold thread_step, bind in Hs.
    destruct (connection_test p) as [[[up|w|] p1] e1]; try discriminate.
    injection Hs as <- _ _. discriminate.
  - unfold thread_step, bind in Hs.
    destruct (publish_or_queue msg up p) as [[[[]|w|] p1] e1]; try discriminate.
    injection Hs as <- _ _. discriminate.
  - destruct (thread_step_lock _ _ _ _ _ Hs I) as (_ & _ & Hh).
    intros ->. discriminate Hh.
  - unfold thread_step, bind in Hs.
    destruct (drain p) as [[[[]|w|] p1] e1]; try discriminate.
    injection Hs as <- _ _. discriminate.
  - destruct (thread_step_unlock _ _ _ _ Hs) as (_ & _ & -> & _). discriminate.
Qed.

Lemma nth_error_upd_other {A} (l : list A) (i j : nat) (x : A) :
  j <> i -> nth_error (upd i x l) j = nth_error l j.
Proof.
  revert i j. induction l as [|y l IH]; intros i j Hne; [now destruct i|].
  destruct i, j; simpl; try reflexivity; try (now contradiction Hne).
  apply IH. intros ->. now apply Hne.
Qed.

Lemma nth_error_upd_same {A} (l : list A) (i : nat) (x y : A) :
  nth_error l i = Some y -> nth_error (upd i x l) i = Some x.
Proof.
  revert i. induction l as [|z l IH]; intros i H; destruct i; simpl in *;
    try discriminate; [reflexivity | now apply IH].
Qed.

Lemma holders_upd (l : list thread) (i : nat) (t t' : thread) :
  nth_error l i = Some t ->
  (holders (upd i t' l) + weight t = holders l + weight t')%nat.
Proof.
  unfold holders, weight.
  revert i. induction l as [|y l IH]; intros i H; destruct i; simpl in *;
    try discriminate.
  - injection H as ->. destruct (holds t), (holds t'); simpl; lia.
  - specialize (IH i H). destruct (holds y); simpl; lia.
Qed.

Lemma holders_waiting (l : list thread) : Forall waiting l -> holders l = 0%nat.
Proof.
  unfold holders. induction 1 as [|t l Ht _ IH]; [reflexivity|].
  simpl. destruct t; try now contradiction Ht.
  all: exact IH.
Qed.

Lemma holders_member (l : list thread) (i : nat) (t : thread) :
  nth_error l i = Some t -> holds t = true -> (1 <= holders l)%nat.
Proof.
  unfold holders.
  revert i. induction l as [|y l IH]; intros i H Hh; destruct i; simpl in *;
    try discriminate.
  - injection H as ->. rewrite Hh. simpl. lia.
  - specialize (IH i H Hh). destruct (holds y); simpl; lia.
Qed.

Lemma holders_two (l : list thread) (i j : nat) (ti tj : thread) :
  i <> j ->
  nth_error l i = Some ti -> holds ti = true ->
  nth_error l j = Some tj -> holds tj = true ->
  (2 <= holders l)%nat.
Proof.
  intros Hne Hi Hhi Hj Hhj.
  pose proof (holders_upd l i ti Finished Hi) as Hupd.
  unfold weight in Hupd. rewrite Hhi in Hupd. simpl in Hupd.
  assert (Hj' : nth_error (upd i Finished l) j = Some tj).
  { rewrite nth_error_upd_other; [exact Hj | intros ->; now apply Hne]. }
  pose proof (holders_member _ _ _ Hj' Hhj). lia.
Qed.

(** Mutual exclusion: the mutex is held exactly when one thread is
    between its [Lock] and its [Unlock], and never by two. *)
Lemma mutual_exclusion (s : system) :
  reachable s ->
  holders (threads s) = (if mu (shared s) then 1 else 0)%nat.
Proof.
  induction 1 as [p ths Hmu Hw | s s' Hr IH Hstep].
  - simpl. rewrite Hmu. now apply holders_waiting.
  - destruct Hstep as [i t t' p' evs Hi Hf Hs | p' Hq Hmu]; simpl.
    + pose proof (holders_upd _ i t t' Hi) as Hupd. unfold weight in Hupd.
      destruct (holds t) eqn:Hh.
      * destruct t; try discriminate.
        1-3: destruct (thread_step_inside _ _ _ _ _ Hh ltac:(discriminate) Hs)
            as [Hmu' Hh']; rewrite Hh' in Hupd; rewrite Hmu'; lia.
        destruct (thread_step_unlock _ _ _ _ Hs) as (Hm & Hm' & -> & _).
        rewrite Hm in IH. rewrite Hm'. simpl in Hupd. lia.
      * destruct t; try discriminate; try (now contradiction Hf).
        all: destruct (thread_step_lock _ _ _ _ _ Hs I) as (Hm & Hm' & Hh');
          rewrite Hm in IH; rewrite Hm', Hh' in *; lia.
    + now rewrite Hmu.
Qed.

(** While a thread holds the mutex no other thread moves, whatever the
    scheduler does; and as long as the holder itself does not move, the
    queue stays as it is. *)
Lemma holder_runs_alone (s s' : system) (i : nat) (t : thread) :
  reachable s -> sys_step s s' ->
  nth_error (threads s) i = Some t -> holds t = true ->
  (forall j : nat, j <> i -> nth_error (threads s') j = nth_error (threads s) j)
  /\ (nth_error (threads s') i = Some t ->
      messageQueue (shared s') = messageQueue (shared s)).
Proof.
  intros Hr Hstep Hi Hh.
  pose proof (mutual_exclusion s Hr) as Hex.
  pose proof (holders_member _ _ _ Hi Hh) as Hone.
  assert (Hmu : mu (shared s) = true).
  { destruct (mu (shared s)); [reflexivity | lia]. }
  rewrite Hmu in Hex.
  destruct Hstep as [j tj tj' p' evs Hj Hf Hs | p' Hq Hmu']; simpl.
  - destruct (Nat.eq_dec j i) as [->|Hne].
    + split.
      * intros k Hk. now apply nth_error_upd_other.
      * intros Hsame. rewrite (nth_error_upd_same _ _ _ _ Hj) in Hsame.
        rewrite Hi in Hj. injection Hj as <-. injection Hsame as ->.
        exfalso. exact (thread_step_moves _ _ _ _ _ Hf Hs eq_refl).
    + exfalso. destruct (holds tj) eqn:Hhj.
      * pose proof (holders_two _ _ _ _ _ Hne Hj Hhj Hi Hh). lia.
      * destruct tj; try discriminate; try (now contradiction Hf).
        all: destruct (thread_step_lock _ _ _ _ _ Hs I) as (Hm & _);
          rewrite Hm in Hmu; discriminate.
  - split; [reflexivity | intros _; exact Hq].
Qed.

(** Two requests and a drain in flight: the first handler takes the
    mutex and tests the connection; the link then comes up outside the
    mutex; from there no step of the scheduler moves the second handler
    or the drain. *)
Example two_requests_and_a_drain :
  let a := mkMessage "a" "" 0 [] in
  let b := mkMessage "b" "" 0 [] in
  let p0 := set_config (Some DefaultConfig) NewGotifyPluginInstance in
  let p1 := set_mu true p0 in
  let p2 := set_mqttClient (connected_client DefaultConfig true) p1 in
  let s := mkSystem p2 [Acting a false; WaitHandle b; WaitDrain] in
  reachable s
  /\ forall s', sys_step s s' ->
       nth_error (threads s') 1 = Some (WaitHandle b)
       /\ nth_error (threads s') 2 = Some WaitDrain.
Proof.
  intros a b p0 p1 p2 s.
  assert (Hr : reachable s).
  { apply reach_step with (s := mkSystem p1 [Acting a false; WaitHandle b; WaitDrain]).
    - apply reach_step with (s := mkSystem p1 [Testing a; WaitHandle b; WaitDrain]).
      + apply reach_step with (s := mkSystem p0 [WaitHandle a; WaitHandle b; WaitDrain]).
        * apply reach_init; [reflexivity | repeat constructor].
        * exact (step_thread
                   (mkSystem p0 [WaitHandle a; WaitHandle b; WaitDrain])
                   0 (WaitHandle a) (Testing a) p1 [EvLock]
                   eq_refl ltac:(discriminate) eq_refl).
      + exact (step_thread
                 (mkSystem p1 [Testing a; WaitHandle b; WaitDrain])
                 0 (Testing a) (Acting a false) p1 []
                 eq_refl ltac:(discriminate) eq_refl).
    - exact (step_outside
               (mkSystem p1 [Acting a false; WaitHandle b; WaitDrain])
               p2 eq_refl eq_refl). }
  split; [exact Hr|].
  intros s' Hstep.
  destruct (holder_runs_alone s s' 0 (Acting a false) Hr Hstep eq_refl eq_refl)
    as [Hothers _].
  split; [rewrite (Hothers 1%nat) | rewrite (Hothers 2%nat)];
    try reflexivity; discriminate.
Qed.

(** ** Configuration *)

(** [ValidateAndSetConfig] on a non-nil [*MQTTConfig]. *)
Lemma ValidateAndSetConfig_config (cfg : MQTTConfig) (p : MQTTPlugin) :
  ValidateAndSetConfig (AnyConfigPtr (Some cfg)) p
  = if valid_config cfg
    then (Returned None, set_config (Some cfg) p, [])
    else (Returned (Some (validation_error cfg)), p, []).
Proof.
  unfold ValidateAndSetConfig, valid_config, validation_error,
    bind, deref, ret, modify.
  destruct (net.ParseIP (IP cfg)) as [ip|]; simpl; [|reflexivity].
  destruct (Z.ltb_spec (Port cfg) 1) as [H1|H1]; simpl.
  { destruct (Z.leb_spec 1 (Port cfg)); [lia | reflexivity]. }
  destruct (Z.leb_spec 1 (Port cfg)); [simpl | lia].
  destruct (Z.ltb_spec 65535 (Port cfg)) as [H2|H2]; simpl.
  { destruct (Z.leb_spec (Port cfg) 65535); [lia | reflexivity]. }
  destruct (Z.leb_spec (Port cfg) 65535); [simpl | lia].
  destruct (Z.ltb_spec (KeepAlive cfg) 0) as [H3|H3];
    destruct (Z.leb_spec 0 (KeepAlive cfg)); try lia; reflexivity.
Qed.

(** C5. [ValidateAndSetConfig] rejects, with an error and without touching
    the instance (so the configuration installed before stays), every
    configuration whose IP does not parse, whose port is outside
    [1,65535] or whose keep-alive is negative, and installs every other
    one.  The four configurations of the spec come out as it says,
    whatever their remaining fields are. *)
Theorem ValidateAndSetConfig_accepts_exactly_valid :
  (forall (cfg : MQTTConfig) (p : MQTTPlugin),
      ValidateAndSetConfig (AnyConfigPtr (Some cfg)) p
      = if valid_config cfg
        then (Returned None, set_config (Some cfg) p, [])
        else (Returned (Some (validation_error cfg)), p, []))
  /\ (forall u pw q t k r,
         valid_config (mkConfig "999.999.999.999" 1883 u pw q t k r) = false)
  /\ (forall u pw q t k r,
         valid_config (mkConfig "10.0.0.5" 70000 u pw q t k r) = false)
  /\ (forall u pw q t r,
         valid_config (mkConfig "10.0.0.5" 1883 u pw q t (-1) r) = false)
  /\ (forall u pw q t r,
         valid_config (mkConfig "10.0.0.5" 1883 u pw q t 60 r) = true).
Proof.
  split; [|repeat split; intros; reflexivity].
  intros cfg p. apply ValidateAndSetConfig_config.
Qed.

(** ** The webhook *)

(** C3. When hub delivery fails the handler answers 500, and the request
    leaves the whole instance, the queue included, as it was; the only
    call made is the failed delivery itself, so nothing is published. *)
Theorem delivery_error_skips_mqtt (p : MQTTPlugin) (h : MessageHandler)
  (msg : Message) (e : string) :
  msgHandler p = Some h -> h msg = Some e ->
  webhookHandler (Some msg) p = (Returned err500, p, [EvSendMessage msg])
  /\ resp_code err500 = 500
  /\ messageQueue (state_of (webhookHandler (Some msg) p)) = messageQueue p
  /\ publishes (events_of (webhookHandler (Some msg) p)) = [].
Proof.
  intros Hh Hm.
  rewrite (webhookHandler_delivery_error p h msg e Hh Hm).
  repeat split.
Qed.

Lemma delivery_error_skips_mqtt_witness :
  let h : MessageHandler := fun _ => Some "database is locked" in
  let p := set_messageQueue [mkMessage "old" "" 0 []]
             (set_msgHandler (Some h) NewGotifyPluginInstance) in
  let msg := mkMessage "hello" "greeting" 5 [] in
  webhookHandler (Some msg) p = (Returned err500, p, [EvSendMessage msg])
  /\ resp_code err500 = 500
  /\ messageQueue (state_of (webhookHandler (Some msg) p)) = messageQueue p
  /\ publishes (events_of (webhookHandler (Some msg) p)) = [].
Proof.
  intros h p msg.
  apply (delivery_error_skips_mqtt p h msg "database is locked"); reflexivity.
Defined.

(** C10. While the client handle is still nil the handler queues the
    message and answers 200; no method of the handle is called.  A handle
    that is not connected gives the same queue, the same answer and no
    publish either. *)
Theorem nil_client_queues (p : MQTTPlugin) (h : MessageHandler) (msg : Message) :
  mqttClient p = None -> msgHandler p = Some h -> h msg = None -> mu p = false ->
  webhookHandler (Some msg) p
  = (Returned ok200, set_messageQueue (messageQueue p ++ [msg]) p,
     [EvSendMessage msg; EvLock; EvUnlock])
  /\ resp_code ok200 = 200
  /\ forall cl : Client, connected cl = false ->
       let r := webhookHandler (Some msg) (set_mqttClient (Some cl) p) in
       result_of r = Returned ok200
       /\ messageQueue (state_of r) = messageQueue p ++ [msg]
       /\ publishes (events_of r) = [].
Proof.
  intros Hcl Hh Hm Hmu. split; [|split; [reflexivity|]].
  - rewrite (webhookHandler_queue p h msg Hh Hm Hmu).
    + unfold queued_events, check_events. rewrite Hcl. reflexivity.
    + unfold isConnected. now rewrite Hcl.
  - intros cl Hdown r. subst r.
    rewrite (webhookHandler_queue (set_mqttClient (Some cl) p) h msg Hh Hm Hmu Hdown).
    repeat split.
Qed.

Lemma nil_client_queues_witness :
  let h : MessageHandler := fun _ => None in
  let p := set_msgHandler (Some h) NewGotifyPluginInstance in
  let msg := mkMessage "hello" "greeting" 5 [] in
  webhookHandler (Some msg) p
  = (Returned ok200, set_messageQueue (messageQueue p ++ [msg]) p,
     [EvSendMessage msg; EvLock; EvUnlock])
  /\ resp_code ok200 = 200
  /\ forall cl : Client, connected cl = false ->
       let r := webhookHandler (Some msg) (set_mqttClient (Some cl) p) in
       result_of r = Returned ok200
       /\ messageQueue (state_of r) = messageQueue p ++ [msg]
       /\ publishes (events_of r) = [].
Proof.
  intros h p msg. apply (nil_client_queues p h msg); reflexivity.
Defined.

(** C2. A message that passed parsing and hub delivery gets exactly one
    of two treatments, inside one critical section of the plugin's mutex:
    the connection test and then either one [Publish] (link up, queue
    untouched) or one append to the queue (link down, nothing published).
    The mutex is taken before the test and released after the action;
    a handler that finds the mutex held does neither until it is free,
    and the drain of [Enable] does not start either.  With the handlers
    and drains of any number of goroutines interleaved step by step, no
    other thread moves between a handler's [Lock] and its [Unlock], so
    the test and the action are never separated by another test, publish,
    append or drain. *)
Theorem publish_or_queue_under_lock (p : MQTTPlugin) (h : MessageHandler)
  (msg : Message) :
  Inv p -> msgHandler p = Some h -> h msg = None ->
  let r := webhookHandler (Some msg) p in
  result_of r = Returned ok200
  /\ mu (state_of r) = false
  /\ ((isConnected p = true
       /\ (exists c, config p = Some c
             /\ events_of r = [EvSendMessage msg; EvLock; EvIsConnected true;
                               publish_of c msg; EvUnlock])
       /\ messageQueue (state_of r) = messageQueue p)
      \/ (isConnected p = false
          /\ events_of r = [EvSendMessage msg; EvLock] ++ check_events p ++ [EvUnlock]
          /\ messageQueue (state_of r) = messageQueue p ++ [msg]))
  /\ (List.length (publishes (events_of r))
      + List.length (messageQueue (state_of r))
      = List.length (messageQueue p) + 1)%nat
  /\ (forall p' : MQTTPlugin,
         msgHandler p' = Some h -> mu p' = true ->
         webhookHandler (Some msg) p' = (Blocked, p', [EvSendMessage msg]))
  /\ (forall (p' : MQTTPlugin) (c : MQTTConfig),
         config p' = Some c -> mu p' = true ->
         result_of (Enable None p') = Blocked
         /\ messageQueue (state_of (Enable None p')) = messageQueue p'
         /\ publishes (events_of (Enable None p')) = [])
  /\ webhookHandler (Some msg) p
     = (emit (EvSendMessage msg) ;;;
        t1 <- thread_step (WaitHandle msg) ;;
        t2 <- thread_step t1 ;;
        t3 <- thread_step t2 ;;
        _ <- thread_step t3 ;;
        ret ok200) p
  /\ (forall (s s' : system) (i : nat) (t : thread),
         reachable s -> sys_step s s' ->
         nth_error (threads s) i = Some t -> holds t = true ->
         (forall j : nat,
             j <> i -> nth_error (threads s') j = nth_error (threads s) j)
         /\ (nth_error (threads s') i = Some t ->
             messageQueue (shared s') = messageQueue (shared s))).
Proof.
  intros [Hmu Hcfg] Hh Hm r. subst r.
  pose proof (webhookHandler_thread_steps p h msg Hh Hm) as Hsteps.
  pose proof holder_runs_alone as Halone.
  assert (Hdrain : forall (p' : MQTTPlugin) (c : MQTTConfig),
             config p' = Some c -> mu p' = true ->
             result_of (Enable None p') = Blocked
             /\ messageQueue (state_of (Enable None p')) = messageQueue p'
             /\ publishes (events_of (Enable None p')) = []).
  { intros p' c Hc' Hmu'. rewrite (Enable_locked p' c Hc' Hmu').
    destruct p'; repeat split. }
  assert (Hblocked : forall p' : MQTTPlugin,
             msgHandler p' = Some h -> mu p' = true ->
             webhookHandler (Some msg) p' = (Blocked, p', [EvSendMessage msg])).
  { intros p' Hh' Hmu'. now apply webhookHandler_locked with (h := h). }
  destruct (isConnected p) eqn:Hup.
  - assert (Hc : exists c, config p = Some c).
    { unfold isConnected in Hup.
      destruct (mqttClient p) as [cl|] eqn:Hcl; [|discriminate].
      destruct (config p) as [c|] eqn:Hc; [now exists c|].
      exfalso. apply Hcfg; [discriminate|reflexivity]. }
    destruct Hc as [c Hc].
    rewrite (webhookHandler_publish p h msg c Hh Hm Hmu Hup Hc) in Hsteps |- *.
    cbn [result_of state_of events_of fst snd].
    split; [reflexivity|]. split; [exact Hmu|].
    split; [|split; [simpl; lia |
                     split; [exact Hblocked |
                             split; [exact Hdrain |
                                     split; [exact Hsteps | exact Halone]]]]].
    left. split; [reflexivity|]. split; [|reflexivity].
    exists c. split; [exact Hc | reflexivity].
  - rewrite (webhookHandler_queue p h msg Hh Hm Hmu Hup) in Hsteps |- *.
    cbn [result_of state_of events_of fst snd].
    split; [reflexivity|]. split; [exact Hmu|].
    split; [|split; [|split; [exact Hblocked |
                              split; [exact Hdrain |
                                      split; [exact Hsteps | exact Halone]]]]].
    + right. split; [reflexivity|]. split; reflexivity.
    + unfold queued_events.
      rewrite !publishes_app, publishes_check_events.
      assert (Hq : messageQueue (set_messageQueue (messageQueue p ++ [msg]) p)
                   = messageQueue p ++ [msg]) by reflexivity.
      rewrite Hq, (length_app (messageQueue p)). simpl. lia.
Qed.

Lemma publish_or_queue_under_lock_witness :
  let h : MessageHandler := fun _ => None in
  let p := mkPlugin (Some DefaultConfig) (Some h)
                    (connected_client DefaultConfig true) "/plugin/1/custom/"
                    None [] false in
  let msg := mkMessage "hello" "greeting" 5 [] in
  events_of (webhookHandler (Some msg) p)
  = [EvSendMessage msg; EvLock; EvIsConnected true;
     EvPublish "gotify/messages" 0 false "hello"; EvUnlock]
  /\ (List.length (publishes (events_of (webhookHandler (Some msg) p)))
      + List.length (messageQueue (state_of (webhookHandler (Some msg) p)))
      = List.length (messageQueue p) + 1)%nat.
Proof.
  intros h p msg.
  assert (HI : Inv p) by (split; [reflexivity | discriminate]).
  destruct (publish_or_queue_under_lock p h msg HI eq_refl eq_refl)
    as (_ & _ & _ & Hone & _).
  split; [reflexivity | exact Hone].
Defined.

(** ** Queue and replay *)

(** C1. Messages accepted while the broker link is down are all queued,
    in arrival order, and nothing is published for them; the next
    [Enable] whose connect succeeds publishes exactly these messages, one
    [Publish] each, in that order, between taking and releasing the
    mutex, and leaves the queue empty. *)
Theorem queued_while_disconnected_replayed_in_order (p : MQTTPlugin)
  (h : MessageHandler) (c : MQTTConfig) (msgs : list Message) :
  msgHandler p = Some h -> (forall m, In m msgs -> h m = None) ->
  mu p = false -> isConnected p = false ->
  config p = Some c -> messageQueue p = [] ->
  let r1 := serve (map Some msgs) p in
  let r2 := Enable None (state_of r1) in
  result_of r1 = Returned (map (fun _ => ok200) msgs)
  /\ messageQueue (state_of r1) = msgs
  /\ publishes (events_of r1) = []
  /\ result_of r2 = Returned None
  /\ events_of r2
     = [EvConnect (client_options c) None; EvLock]
         ++ map (publish_of c) msgs
         ++ [EvUnlock; EvLog "Successfully connected to MQTT Broker"]
  /\ publishes (events_of r2) = map (publish_of c) msgs
  /\ List.length (publishes (events_of r2)) = List.length msgs
  /\ messageQueue (state_of r2) = [].
Proof.
  intros Hh Hall Hmu Hdown Hc Hq r1 r2.
  assert (E1 : r1 = (Returned (map (fun _ => ok200) msgs),
                     set_messageQueue msgs p,
                     List.concat (map (queued_events p) msgs))).
  { subst r1. rewrite (serve_queue msgs p h Hh Hall Hmu Hdown).
    now rewrite Hq. }
  assert (E2 : r2 = (Returned None,
                     set_messageQueue []
                       (set_mqttClient (connected_client c true)
                          (set_messageQueue msgs p)),
                     [EvConnect (client_options c) None; EvLock]
                       ++ map (publish_of c) msgs
                       ++ [EvUnlock; EvLog "Successfully connected to MQTT Broker"])).
  { subst r2. rewrite E1. cbn [state_of fst snd].
    now rewrite (Enable_success (set_messageQueue msgs p) c Hc Hmu). }
  rewrite E1, E2. cbn [result_of state_of events_of fst snd].
  assert (Hpub : publishes
                   ([EvConnect (client_options c) None; EvLock]
                      ++ map (publish_of c) msgs
                      ++ [EvUnlock; EvLog "Successfully connected to MQTT Broker"])
                 = map (publish_of c) msgs).
  { rewrite !publishes_app, publishes_map_publish_of. simpl.
    now rewrite app_nil_r. }
  rewrite Hpub.
  repeat split.
  - apply publishes_queued_events.
  - apply length_map.
Qed.

Lemma queued_while_disconnected_replayed_in_order_witness :
  let h : MessageHandler := fun _ => None in
  let p := mkPlugin (Some DefaultConfig) (Some h) None "/plugin/1/custom/"
                    None [] false in
  let a := mkMessage "first" "t" 1 [] in
  let b := mkMessage "second" "t" 2 [] in
  let d := mkMessage "first" "t" 1 [] in
  messageQueue (state_of (serve (map Some [a; b; d]) p)) = [a; b; d]
  /\ publishes (events_of (Enable None (state_of (serve (map Some [a; b; d]) p))))
     = [EvPublish "gotify/messages" 0 false "first";
        EvPublish "gotify/messages" 0 false "second";
        EvPublish "gotify/messages" 0 false "first"]
  /\ messageQueue (state_of (Enable None (state_of (serve (map Some [a; b; d]) p)))) = [].
Proof.
  intros h p a b d.
  destruct (queued_while_disconnected_replayed_in_order p h DefaultConfig [a; b; d])
    as (_ & Hq & _ & _ & _ & Hpub & _ & Hempty); try reflexivity.
  repeat split; assumption.
Defined.

(** C8. [Disable] leaves the queue as it is and publishes nothing,
    whether it disconnects an existing handle or finds none; an [Enable]
    with a successful connect that follows publishes exactly the queued
    messages, in their order, and leaves the queue empty. *)
Theorem disable_keeps_queue_for_next_enable (p : MQTTPlugin) (c : MQTTConfig) :
  config p = Some c -> mu p = false ->
  let rd := Disable p in
  let re := Enable None (state_of rd) in
  messageQueue (state_of rd) = messageQueue p
  /\ publishes (events_of rd) = []
  /\ (forall cl : Client, mqttClient p = Some cl ->
        rd = (Returned None,
              set_mqttClient (Some (mkClient (client_opts cl) false)) p,
              [EvDisconnect 250]))
  /\ result_of re = Returned None
  /\ publishes (events_of re) = map (publish_of c) (messageQueue p)
  /\ List.length (publishes (events_of re)) = List.length (messageQueue p)
  /\ messageQueue (state_of re) = [].
Proof.
  intros Hc Hmu rd re.
  destruct (Disable_frame p) as (Hq & Hcfg & Hm & _ & Hpub).
  fold rd in Hq, Hcfg, Hm, Hpub.
  assert (Hc' : config (state_of rd) = Some c) by now rewrite Hcfg.
  assert (Hmu' : mu (state_of rd) = false) by now rewrite Hm.
  assert (E : re = (Returned None,
                    set_messageQueue []
                      (set_mqttClient (connected_client c true) (state_of rd)),
                    [EvConnect (client_options c) None; EvLock]
                      ++ map (publish_of c) (messageQueue p)
                      ++ [EvUnlock; EvLog "Successfully connected to MQTT Broker"])).
  { subst re. rewrite (Enable_success (state_of rd) c Hc' Hmu'). now rewrite Hq. }
  assert (Hpub' : publishes (events_of re) = map (publish_of c) (messageQueue p)).
  { rewrite E. cbn [events_of snd].
    rewrite !publishes_app, publishes_map_publish_of. simpl.
    now rewrite app_nil_r. }
  repeat split; try assumption.
  - intros cl Hcl. subst rd. now apply Disable_client.
  - now rewrite E.
  - rewrite Hpub'. apply length_map.
  - now rewrite E.
Qed.

Lemma disable_keeps_queue_for_next_enable_witness :
  let a := mkMessage "one" "t" 1 [] in
  let b := mkMessage "two" "t" 1 [] in
  let d := mkMessage "three" "t" 1 [] in
  let p := mkPlugin (Some DefaultConfig) None
                    (connected_client DefaultConfig false) "" None [a; b; d] false in
  messageQueue (state_of (Disable p)) = [a; b; d]
  /\ publishes (events_of (Enable None (state_of (Disable p))))
     = [EvPublish "gotify/messages" 0 false "one";
        EvPublish "gotify/messages" 0 false "two";
        EvPublish "gotify/messages" 0 false "three"]
  /\ messageQueue (state_of (Enable None (state_of (Disable p)))) = [].
Proof.
  intros a b d p.
  destruct (disable_keeps_queue_for_next_enable p DefaultConfig eq_refl eq_refl)
    as (Hq & _ & _ & _ & Hpub & _ & Hempty).
  repeat split; assumption.
Defined.

(** One lifecycle call either publishes nothing and keeps the queue, or
    publishes the whole queue once and empties it; the config stays. *)
Lemma lifecycle_step_cases (op : LifecycleOp) (p : MQTTPlugin) :
  let r := lifecycle_step op p in
  config (state_of r) = config p
  /\ ((publishes (events_of r) = [] /\ messageQueue (state_of r) = messageQueue p)
      \/ (exists c, config p = Some c
            /\ publishes (events_of r) = map (publish_of c) (messageQueue p)
            /\ messageQueue (state_of r) = [])).
Proof.
  cbv zeta. destruct op as [connect|]; cbn [lifecycle_step].
  - destruct (config p) as [c|] eqn:Hc.
    + destruct connect as [e|].
      * rewrite (Enable_failure p c e Hc). destruct p; simpl in *.
        split; [assumption | left; split; reflexivity].
      * destruct (mu p) eqn:Hmu.
        -- rewrite (Enable_locked p c Hc Hmu). destruct p; simpl in *.
           split; [assumption | left; split; reflexivity].
        -- rewrite (Enable_success p c Hc Hmu).
           cbn [state_of events_of fst snd].
           split; [destruct p; assumption|].
           right. exists c. repeat split.
           rewrite !publishes_app, publishes_map_publish_of. simpl.
           now rewrite app_nil_r.
    + rewrite (Enable_no_config p connect Hc).
      split; [assumption | left; split; reflexivity].
  - destruct (Disable_frame p) as (Hq & Hcfg & _ & _ & Hpub).
    split; [assumption | left; split; assumption].
Qed.

Lemma lifecycle_cons (recover : bool) (op : LifecycleOp) (ops : list LifecycleOp)
  (p : MQTTPlugin) :
  exists evs' p',
    events_of (lifecycle recover (op :: ops) p)
    = events_of (lifecycle_step op p) ++ evs'
    /\ state_of (lifecycle recover (op :: ops) p) = p'
    /\ ((evs' = [] /\ p' = state_of (lifecycle_step op p))
        \/ (evs' = events_of (lifecycle recover ops (state_of (lifecycle_step op p)))
            /\ p' = state_of (lifecycle recover ops (state_of (lifecycle_step op p))))).
Proof.
  cbn [lifecycle]. unfold bind, guarded.
  destruct (lifecycle_step op p) as [[[a|w|] p1] e1];
    cbn [state_of events_of fst snd].
  - destruct (lifecycle recover ops p1) as [[r p2] e2]; cbn [fst snd].
    exists e2, p2. repeat split. right. split; reflexivity.
  - destruct recover.
    + destruct (lifecycle true ops p1) as [[r p2] e2]; cbn [fst snd].
      exists e2, p2. repeat split. right. split; reflexivity.
    + exists [], p1. rewrite app_nil_r. repeat split. left. split; reflexivity.
  - exists [], p1. rewrite app_nil_r. repeat split. left. split; reflexivity.
Qed.

(** C4. Over any sequence of [Enable] and [Disable] calls, whatever the
    broker answers to each connect and whether or not the host recovers
    from a panicking call, the messages that were in the queue are
    published either not at all (and are still queued) or exactly once
    each, in order (and the queue is empty): once a successful [Enable]
    has drained the queue, no later call publishes them again. *)
Theorem drained_queue_never_replayed (recover : bool) (ops : list LifecycleOp) :
  forall p : MQTTPlugin,
    let r := lifecycle recover ops p in
    (publishes (events_of r) = [] /\ messageQueue (state_of r) = messageQueue p)
    \/ (exists c, config p = Some c
          /\ publishes (events_of r) = map (publish_of c) (messageQueue p)
          /\ messageQueue (state_of r) = []).
Proof.
  induction ops as [|op ops IH]; intros p r; subst r.
  - left. split; reflexivity.
  - destruct (lifecycle_cons recover op ops p) as (evs' & p' & Hev & Hst & Hrest).
    destruct (lifecycle_step_cases op p) as (Hcfg & Hstep).
    rewrite Hev, Hst, publishes_app.
    destruct Hrest as [[-> ->] | [-> ->]].
    + rewrite app_nil_r. exact Hstep.
    + specialize (IH (state_of (lifecycle_step op p))). cbv zeta in IH.
      destruct Hstep as [[Hp Hq] | (c & Hc & Hp & Hq)].
      * rewrite Hp. cbn [app]. rewrite Hq, Hcfg in IH. exact IH.
      * right. exists c. rewrite Hp.
        destruct IH as [[Hp' Hq'] | (c' & _ & Hp' & Hq')].
        -- rewrite Hp', app_nil_r, Hq', Hq. repeat split; assumption.
        -- rewrite Hp', Hq, Hq', app_nil_r. repeat split; assumption.
Qed.

(** ** Connection errors *)

Lemma connect_failure_nonempty (e : string) : connect_failure e <> "".
Proof. unfold connect_failure. simpl. discriminate. Qed.

(** C7. When the connect of [Enable] fails, [Enable] stores and returns a
    non-empty error that describes the failure, and publishes nothing.
    The plugin stays switched on as far as its own state goes: it holds a
    client handle (not connected) that a later [Disable] can disconnect,
    and the handler keeps answering 200.  Every message that arrives
    afterwards is appended to the queue, in order, and none is published. *)
Theorem failed_connect_sets_error_and_queues (p : MQTTPlugin) (c : MQTTConfig)
  (h : MessageHandler) (e : string) (msgs : list Message) :
  config p = Some c -> mu p = false ->
  msgHandler p = Some h -> (forall m, In m msgs -> h m = None) ->
  let r := Enable (Some e) p in
  let r' := serve (map Some msgs) (state_of r) in
  result_of r = Returned (Some (connect_failure e))
  /\ lastError (state_of r) = Some (connect_failure e)
  /\ connect_failure e <> ""
  /\ publishes (events_of r) = []
  /\ mqttClient (state_of r) = connected_client c false
  /\ result_of (Disable (state_of r)) = Returned None
  /\ result_of r' = Returned (map (fun _ => ok200) msgs)
  /\ messageQueue (state_of r') = messageQueue p ++ msgs
  /\ publishes (events_of r') = [].
Proof.
  intros Hc Hmu Hh Hall r r'.
  assert (E : r = (Returned (Some (connect_failure e)),
                   set_lastError (Some (connect_failure e))
                     (set_mqttClient (connected_client c false) p),
                   [EvConnect (client_options c) (Some e);
                    EvLog (connect_failure e)])).
  { subst r. now apply Enable_failure. }
  assert (E' : r' = (Returned (map (fun _ => ok200) msgs),
                     set_messageQueue (messageQueue p ++ msgs) (state_of r),
                     List.concat (map (queued_events (state_of r)) msgs))).
  { subst r'. rewrite E. cbn [state_of fst snd].
    rewrite (serve_queue msgs _ h); try assumption; reflexivity. }
  rewrite E'. rewrite E. cbn [result_of state_of events_of fst snd].
  repeat split.
  - apply connect_failure_nonempty.
  - apply publishes_queued_events.
Qed.

Lemma failed_connect_sets_error_and_queues_witness :
  let h : MessageHandler := fun _ => None in
  let p := mkPlugin (Some DefaultConfig) (Some h) None "" None [] false in
  let a := mkMessage "one" "t" 1 [] in
  let b := mkMessage "two" "t" 1 [] in
  lastError (state_of (Enable (Some "connection refused") p))
  = Some "Failed to connect to MQTT Broker: connection refused"
  /\ messageQueue
       (state_of (serve (map Some [a; b])
                    (state_of (Enable (Some "connection refused") p))))
     = [a; b]
  /\ publishes
       (events_of (serve (map Some [a; b])
                     (state_of (Enable (Some "connection refused") p))))
     = [].
Proof.
  intros h p a b.
  destruct (failed_connect_sets_error_and_queues p DefaultConfig h
              "connection refused" [a; b])
    as (_ & Herr & _ & _ & _ & _ & _ & Hq & Hpub); try reflexivity.
  repeat split; assumption.
Defined.

Lemma GetDisplay_returns (p : MQTTPlugin) (loc : string) :
  GetDisplay (Some loc) p
  = (Returned (match lastError p with
               | Some err => display_with_error err loc (basePath p)
               | None => usage loc (basePath p)
               end), p, []).
Proof.
  unfold GetDisplay, bind, gets, deref, ret. simpl.
  destruct (lastError p); reflexivity.
Qed.

(** Last Error is written by one call only, an [Enable] whose connect
    fails; no call resets it. *)
Lemma lastError_frame (call : Call) (p : MQTTPlugin) :
  lastError (state_of (perform call p)) = lastError p
  \/ (exists e : string,
         call = CallEnable (Some e)
         /\ lastError (state_of (perform call p)) = Some (connect_failure e)).
Proof.
  destruct call as [conf|connect| |h|base|body|location];
    cbn [perform]; unfold guarded.
  - left. destruct conf as [|[cfg|]|str|z]; try reflexivity.
    rewrite ValidateAndSetConfig_config. now destruct (valid_config cfg), p.
  - destruct (config p) as [c|] eqn:Hc.
    + destruct connect as [e|].
      * right. exists e. rewrite (Enable_failure p c e Hc). split; reflexivity.
      * left. destruct (mu p) eqn:Hmu.
        -- rewrite (Enable_locked p c Hc Hmu). now destruct p.
        -- rewrite (Enable_success p c Hc Hmu). now destruct p.
    + left. now rewrite (Enable_no_config p connect Hc).
  - left. destruct (Disable_frame p) as (_ & _ & _ & He & _).
    destruct (Disable p) as [[[a|w|] p1] e1]; exact He.
  - left. now destruct p.
  - left. now destruct p.
  - left. destruct body as [msg|]; [|reflexivity].
    destruct p as [cfg mh cl bp le q m].
    unfold_ops; simpl.
    destruct mh as [h|]; [simpl|reflexivity].
    destruct (h msg); [reflexivity|simpl].
    destruct m; [reflexivity|simpl].
    destruct cl as [[o [|]]|]; simpl; try reflexivity.
    destruct cfg; reflexivity.
  - left. destruct location as [loc|].
    + now rewrite GetDisplay_returns.
    + unfold GetDisplay, bind, gets, deref. simpl. reflexivity.
Qed.

(** C6, the claim fails: an [Enable] that succeeds after one that failed
    leaves the old error in place, and the display still shows it. *)
Lemma successful_enable_keeps_stale_error :
  let p0 := set_config (Some DefaultConfig) NewGotifyPluginInstance in
  let p1 := state_of (Enable (Some "connection refused") p0) in
  let r2 := Enable None p1 in
  result_of r2 = Returned None
  /\ lastError (state_of r2)
     = Some "Failed to connect to MQTT Broker: connection refused"
  /\ lastError (state_of r2) <> None
  /\ result_of (GetDisplay (Some "http://hub/plugin/1/custom/") (state_of r2))
     <> Returned (usage "http://hub/plugin/1/custom/" (basePath (state_of r2))).
Proof.
  cbv zeta. repeat split; try discriminate.
Qed.

(** C6, as the code has it. [Enable] writes Last Error only when its
    connect fails; an [Enable] that succeeds returns nil and leaves Last
    Error as it was, so the display after it shows the usage text alone
    exactly when no error was stored before, and the stored error in
    front of the usage text otherwise.  No call of the plugin resets a
    stored error. *)
Theorem lastError_written_only_by_failed_enable (p : MQTTPlugin) (c : MQTTConfig) :
  config p = Some c -> mu p = false ->
  (forall e : string,
      lastError (state_of (Enable (Some e) p)) = Some (connect_failure e))
  /\ result_of (Enable None p) = Returned None
  /\ lastError (state_of (Enable None p)) = lastError p
  /\ (forall loc : string,
         result_of (GetDisplay (Some loc) (state_of (Enable None p)))
         = Returned (match lastError p with
                     | Some err => display_with_error err loc (basePath p)
                     | None => usage loc (basePath p)
                     end))
  /\ (forall loc : string,
         result_of (GetDisplay (Some loc) (state_of (Enable None p)))
         = Returned (usage loc (basePath p))
         <-> lastError p = None)
  /\ (forall (call : Call) (p' : MQTTPlugin),
         lastError p' <> None -> lastError (state_of (perform call p')) <> None).
Proof.
  intros Hc Hmu.
  assert (Hkept : forall (call : Call) (p' : MQTTPlugin),
             lastError p' <> None ->
             lastError (state_of (perform call p')) <> None).
  { intros call p' Hsome.
    destruct (lastError_frame call p') as [-> | (e & _ & ->)];
      [exact Hsome | discriminate]. }
  assert (Hshow : forall loc : string,
             result_of (GetDisplay (Some loc) (state_of (Enable None p)))
             = Returned (match lastError p with
                         | Some err => display_with_error err loc (basePath p)
                         | None => usage loc (basePath p)
                         end)).
  { intros loc. rewrite GetDisplay_returns, (Enable_success p c Hc Hmu).
    reflexivity. }
  repeat split.
  - intros e. now rewrite (Enable_failure p c e Hc).
  - now rewrite (Enable_success p c Hc Hmu).
  - now rewrite (Enable_success p c Hc Hmu).
  - exact Hshow.
  - rewrite Hshow. destruct (lastError p) as [err|]; [|reflexivity].
    intros H. exfalso. unfold display_with_error in H.
    injection H as H. discriminate H.
  - intros H. rewrite Hshow, H. reflexivity.
  - exact Hkept.
Qed.

Lemma lastError_written_only_by_failed_enable_witness :
  let p := mkPlugin (Some DefaultConfig) None None "/plugin/1/custom/"
                    (Some "Failed to connect to MQTT Broker: timeout") [] false in
  lastError (state_of (Enable None p))
  = Some "Failed to connect to MQTT Broker: timeout"
  /\ lastError (state_of (Enable (Some "refused") p))
     = Some "Failed to connect to MQTT Broker: refused".
Proof.
  intros p.
  destruct (lastError_written_only_by_failed_enable p DefaultConfig eq_refl eq_refl)
    as (Hfail & _ & Hkeep & _).
  split; [exact Hkeep | exact (Hfail "refused")].
Defined.

(** ** Panics *)

Lemma Inv_NewGotifyPluginInstance : Inv NewGotifyPluginInstance.
Proof. split; [reflexivity | intros H; now contradiction H]. Qed.

(** [Disable] on an instance that never went through [Enable]: the method
    call through the nil interface value panics. *)
Lemma Disable_before_Enable_panics :
  Disable NewGotifyPluginInstance
  = (Panicked nil_deref, NewGotifyPluginInstance, []).
Proof. reflexivity. Qed.

(** A typed nil pointer passes the type assertion and panics at the
    first field read. *)
Lemma ValidateAndSetConfig_nil_pointer_panics (p : MQTTPlugin) :
  ValidateAndSetConfig (AnyConfigPtr None) p = (Panicked nil_deref, p, []).
Proof. reflexivity. Qed.

(** C9, the claim fails: [ValidateAndSetConfig] asserts the type of its
    argument without the two-value form, so a value of another type
    panics instead of producing an error. *)
Lemma ValidateAndSetConfig_wrong_type_panics :
  ValidateAndSetConfig (AnyString "10.0.0.5:1883") NewGotifyPluginInstance
  = (Panicked type_assertion, NewGotifyPluginInstance, [])
  /\ ~ (exists (e : error) (p' : MQTTPlugin) (evs : list Event),
           ValidateAndSetConfig (AnyString "10.0.0.5:1883") NewGotifyPluginInstance
           = (Returned e, p', evs)).
Proof.
  split; [reflexivity|].
  intros (e & p' & evs & H). discriminate H.
Qed.

Lemma completes_webhookHandler (p : MQTTPlugin) (body : option Message) :
  Inv p -> msgHandler p <> None -> completes (webhookHandler body) p.
Proof.
  intros HI Hh. pose proof HI as [Hmu Hcfg].
  destruct body as [msg|].
  - destruct (msgHandler p) as [h|] eqn:Eh; [|now contradiction Hh].
    destruct (h msg) as [e|] eqn:Em.
    + exists err500, p, [EvSendMessage msg]. split; [|exact HI].
      exact (webhookHandler_delivery_error p h msg e Eh Em).
    + destruct (isConnected p) eqn:Hup.
      * destruct (config p) as [c|] eqn:Hc.
        -- eexists _, _, _. split; [|exact HI].
           exact (webhookHandler_publish p h msg c Eh Em Hmu Hup Hc).
        -- exfalso. unfold isConnected in Hup.
           destruct (mqttClient p); [|discriminate].
           apply Hcfg; [discriminate | reflexivity].
      * eexists _, _, _. split.
        -- exact (webhookHandler_queue p h msg Eh Em Hmu Hup).
        -- destruct p; exact HI.
  - exists err400, p, []. split; [reflexivity | exact HI].
Qed.

(** C9, as the code has it. On an instance that satisfies [Inv] (the
    fresh instance does, and every completed operation keeps it) no
    operation panics or blocks when the host keeps to the plugin API:
    [ValidateAndSetConfig] gets a non-nil [*MQTTConfig] and reports an
    invalid one by its return value, [Enable] runs once a configuration
    is installed and reports a failed connect by its return value,
    [Disable] runs once an [Enable] has created the client handle, the
    handler runs once the message handler is set and reports failures by
    its status code, [GetDisplay] gets a non-nil location.  A value that
    is not a [*MQTTConfig] makes [ValidateAndSetConfig] panic at its type
    assertion. *)
Theorem operations_complete_within_plugin_api (p : MQTTPlugin) :
  Inv p ->
  (forall cfg : MQTTConfig,
      completes (ValidateAndSetConfig (AnyConfigPtr (Some cfg))) p)
  /\ (config p <> None -> forall connect : error, completes (Enable connect) p)
  /\ (mqttClient p <> None -> completes Disable p)
  /\ (config p <> None ->
      forall connect : error, completes Disable (state_of (Enable connect p)))
  /\ (msgHandler p <> None ->
      forall body : option Message, completes (webhookHandler body) p)
  /\ (forall loc : string, completes (GetDisplay (Some loc)) p)
  /\ (forall h : option MessageHandler, completes (SetMessageHandler h) p)
  /\ (forall base : string, completes (RegisterWebhook base) p)
  /\ (forall conf : any,
         (forall ptr, conf <> AnyConfigPtr ptr) ->
         ValidateAndSetConfig conf p = (Panicked type_assertion, p, [])).
Proof.
  intros HI. pose proof HI as [Hmu Hcfg].
  split; [|split; [|split; [|split; [|split; [|split; [|split; [|split]]]]]]].
  - intros cfg.
    unfold completes. rewrite ValidateAndSetConfig_config.
    destruct (valid_config cfg).
    + eexists _, _, _. split; [reflexivity|].
      destruct p; split; [exact Hmu | discriminate].
    + eexists _, _, _. split; [reflexivity | exact HI].
  - intros Hc connect.
    destruct (config p) as [c|] eqn:Ec; [|now contradiction Hc].
    destruct connect as [e|].
    + eexists _, _, _. split; [exact (Enable_failure p c e Ec)|].
      destruct p; simpl in *. split; [exact Hmu | now rewrite Ec].
    + eexists _, _, _. split; [exact (Enable_success p c Ec Hmu)|].
      destruct p; simpl in *. split; [exact Hmu | now rewrite Ec].
  - intros Hcl.
    destruct (mqttClient p) as [cl|] eqn:Ecl; [|now contradiction Hcl].
    eexists _, _, _. split; [exact (Disable_client p cl Ecl)|].
    destruct p; simpl in *. split; [exact Hmu|].
    intros _. apply Hcfg. discriminate.
  - intros Hc connect.
    destruct (config p) as [c|] eqn:Ec; [|now contradiction Hc].
    destruct connect as [e|].
    + rewrite (Enable_failure p c e Ec). cbn [state_of fst snd].
      eexists _, _, _. split; [apply Disable_client; reflexivity|].
      destruct p; simpl in *. split; [exact Hmu | now rewrite Ec].
    + rewrite (Enable_success p c Ec Hmu). cbn [state_of fst snd].
      eexists _, _, _. split; [apply Disable_client; reflexivity|].
      destruct p; simpl in *. split; [exact Hmu | now rewrite Ec].
  - intros Hh body. now apply completes_webhookHandler.
  - intros loc. eexists _, _, _. split; [apply GetDisplay_returns | exact HI].
  - intros h. exists tt, (set_msgHandler h p), []. split; [reflexivity|].
    destruct p; exact HI.
  - intros base. exists tt, (set_basePath base p), []. split; [reflexivity|].
    destruct p; exact HI.
  - intros conf Hother. destruct conf as [|ptr|str|z]; try reflexivity.
    now contradiction (Hother ptr).
Qed.

Lemma operations_complete_within_plugin_api_witness :
  let h : MessageHandler := fun m => if String.eqb (msg_Message m) "" then Some "empty" else None in
  let p := mkPlugin (Some DefaultConfig) (Some h)
                    (connected_client DefaultConfig true) "/plugin/1/custom/"
                    None [mkMessage "queued" "" 0 []] false in
  completes (ValidateAndSetConfig (AnyConfigPtr (Some (mkConfig "300.1.1.1" 0 "" "" 0 "" 0 false)))) p
  /\ completes (Enable (Some "connection refused")) p
  /\ completes Disable p
  /\ completes (webhookHandler (Some (mkMessage "hello" "" 0 []))) p
  /\ completes (GetDisplay (Some "http://hub")) p.
Proof.
  intros h p.
  assert (HI : Inv p) by (split; [reflexivity | discriminate]).
  destruct (operations_complete_within_plugin_api p HI)
    as (Hv & He & Hd & _ & Hw & Hg & _).
  repeat split.
  - apply Hv.
  - apply He. discriminate.
  - apply Hd. discriminate.
  - apply Hw. discriminate.
  - apply Hg.
Defined.

(** ** Whole runs *)

Lemma payloads_app (a b : list Event) : payloads (a ++ b) = payloads a ++ payloads b.
Proof.
  induction a as [|e a IH]; [reflexivity|].
  destruct e; simpl; now rewrite IH.
Qed.

Lemma payloads_publish_of (c : MQTTConfig) (q : list Message) :
  payloads (map (publish_of c) q) = map msg_Message q.
Proof. induction q as [|m q IH]; simpl; [reflexivity | now rewrite IH]. Qed.

Lemma payloads_check_events (p : MQTTPlugin) : payloads (check_events p) = [].
Proof. unfold check_events. now destruct (mqttClient p). Qed.

Lemma Inv_config (p : MQTTPlugin) :
  Inv p -> isConnected p = true -> exists c, config p = Some c.
Proof.
  intros [_ Hcfg] Hup. unfold isConnected in Hup.
  destruct (mqttClient p) as [cl|] eqn:Hcl; [|discriminate].
  destruct (config p) as [c|] eqn:Hc; [now exists c|].
  exfalso. apply Hcfg; [discriminate | reflexivity].
Qed.

(** One step of a run from a settled state: if it returns the state is
    settled again, and in any case what it publishes followed by what it
    leaves in the queue is what was in the queue followed by what it
    took over. *)
Lemma do_step_conserves (st : Step) (p : MQTTPlugin) :
  Settled p ->
  let r := do_step st p in
  (forall u, result_of r = Returned u -> Settled (state_of r))
  /\ payloads (events_of r) ++ map msg_Message (messageQueue (state_of r))
     = map msg_Message (messageQueue p)
       ++ map msg_Message
            (match result_of r with Returned _ => accepted_by st p | _ => [] end).
Proof.
  intros [HI Hq]. pose proof HI as [Hmu Hcfg]. cbv zeta.
  destruct st as [[conf|connect| |h|base|body|location]|];
    cbn [do_step perform accepted_by]; unfold guarded.
  - (* ValidateAndSetConfig *)
    destruct conf as [|[cfg|]|str|z];
      try (cbn; split; [discriminate | now rewrite app_nil_r]).
    rewrite ValidateAndSetConfig_config.
    destruct (valid_config cfg); cbn [result_of state_of events_of fst snd].
    + split; [|destruct p; simpl; now rewrite app_nil_r].
      intros _ _. destruct p; simpl in *.
      split; [split; [exact Hmu | discriminate] | exact Hq].
    + split; [|simpl; now rewrite app_nil_r].
      intros _ _. split; assumption.
  - (* Enable *)
    destruct (config p) as [c|] eqn:Hc.
    + destruct connect as [e|].
      * rewrite (Enable_failure p c e Hc).
        cbn [result_of state_of events_of fst snd].
        split; [|destruct p; simpl; now rewrite app_nil_r].
        intros _ _. destruct p; simpl in *.
        split; [split; [exact Hmu | now rewrite Hc] | discriminate].
      * rewrite (Enable_success p c Hc Hmu).
        cbn [result_of state_of events_of fst snd].
        split.
        -- intros _ _. destruct p; simpl in *.
           split; [split; [exact Hmu | now rewrite Hc] | reflexivity].
        -- cbn [payloads app].
           rewrite payloads_app, payloads_publish_of. simpl.
           now rewrite !app_nil_r.
    + rewrite (Enable_no_config p connect Hc).
      cbn. split; [discriminate | now rewrite app_nil_r].
  - (* Disable *)
    destruct (mqttClient p) as [cl|] eqn:Hcl.
    + rewrite (Disable_client p cl Hcl).
      cbn [result_of state_of events_of fst snd].
      split; [|destruct p; simpl; now rewrite app_nil_r].
      intros _ _. destruct p; simpl in *.
      split; [split; [exact Hmu|] | discriminate].
      intros _. apply Hcfg. discriminate.
    + rewrite (Disable_nil_client p Hcl).
      cbn. split; [discriminate | now rewrite app_nil_r].
  - (* SetMessageHandler *)
    cbn. split; [|destruct p; simpl; now rewrite app_nil_r].
    intros _ _. destruct p; split; [exact HI | exact Hq].
  - (* RegisterWebhook *)
    cbn. split; [|destruct p; simpl; now rewrite app_nil_r].
    intros _ _. destruct p; split; [exact HI | exact Hq].
  - (* a request *)
    destruct body as [msg|].
    + destruct (msgHandler p) as [h|] eqn:Hh.
      * destruct (h msg) as [e|] eqn:Hm.
        -- rewrite (webhookHandler_delivery_error p h msg e Hh Hm).
           cbn [result_of state_of events_of fst snd payloads].
           split; [|simpl; now rewrite app_nil_r].
           intros _ _. split; assumption.
        -- destruct (isConnected p) eqn:Hup.
           ++ destruct (Inv_config p HI Hup) as [c Hc].
              rewrite (webhookHandler_publish p h msg c Hh Hm Hmu Hup Hc).
              cbn [result_of state_of events_of fst snd].
              split; [intros _ _; split; [exact HI | intros _; exact (Hq eq_refl)]|].
              rewrite (Hq eq_refl). reflexivity.
           ++ rewrite (webhookHandler_queue p h msg Hh Hm Hmu Hup).
              cbn [result_of state_of events_of fst snd].
              split.
              ** intros _ _. destruct p; simpl in *.
                 split; [exact HI|]. intros Hup'.
                 unfold isConnected in Hup, Hup'. simpl in *.
                 rewrite Hup in Hup'. discriminate.
              ** unfold queued_events.
                 rewrite !payloads_app, payloads_check_events.
                 destruct p; simpl. now rewrite map_app.
      * unfold webhookHandler, bind, deref. rewrite Hh.
        cbn. split; [discriminate | now rewrite app_nil_r].
    + cbn. split; [|now rewrite app_nil_r].
      intros _ _. split; assumption.
  - (* GetDisplay *)
    destruct location as [loc|].
    + rewrite GetDisplay_returns. cbn.
      split; [|now rewrite app_nil_r].
      intros _ _. split; assumption.
    + unfold GetDisplay, bind, gets, deref. cbn.
      split; [discriminate | now rewrite app_nil_r].
  - (* the link drops *)
    unfold link_down, bind, gets, modify, ret.
    destruct (mqttClient p) as [cl|] eqn:Hcl;
      cbn [result_of state_of events_of fst snd payloads app].
    + split; [|destruct p; simpl; now rewrite app_nil_r].
      intros _ _. destruct p; simpl in *.
      split; [split; [exact Hmu|] | discriminate].
      intros _. apply Hcfg. discriminate.
    + split; [|now rewrite app_nil_r].
      intros _ _. split; assumption.
Qed.

Lemma play_cons (st : Step) (rest : list Step) (p : MQTTPlugin) :
  play (st :: rest) p
  = match do_step st p with
    | (Returned _, p1, e1) =>
        (result_of (play rest p1), state_of (play rest p1),
         e1 ++ events_of (play rest p1))
    | (Panicked w, p1, e1) => (Panicked w, p1, e1)
    | (Blocked, p1, e1) => (Blocked, p1, e1)
    end.
Proof.
  unfold play. cbn [forM_]. unfold bind.
  destruct (do_step st p) as [[[u|w|] p1] e1]; try reflexivity.
  now destruct (forM_ rest do_step p1) as [[r p2] e2].
Qed.

(** X1. Over any run from a settled state (the fresh instance is one) in
    which the host calls the plugin in any order and the link drops at
    any time: the payloads published so far, followed by the texts still
    in the queue, are exactly the texts that were queued at the start
    followed by the texts of the messages taken over during the run, in
    arrival order.  No message is lost, none is published twice, and the
    broker sees them in the order the hub accepted them. *)
Theorem no_message_lost_repeated_or_reordered (steps : list Step) :
  forall p : MQTTPlugin,
    Settled p ->
    payloads (events_of (play steps p))
      ++ map msg_Message (messageQueue (state_of (play steps p)))
    = map msg_Message (messageQueue p) ++ map msg_Message (accepted steps p).
Proof.
  induction steps as [|st rest IH]; intros p HS.
  - simpl. now rewrite app_nil_r.
  - destruct (do_step_conserves st p HS) as [Hnext Hone]. cbv zeta in Hnext, Hone.
    rewrite play_cons. cbn [accepted].
    destruct (do_step st p) as [[[u|w|] p1] e1];
      cbn [result_of state_of events_of fst snd] in *.
    + specialize (IH p1 (Hnext u eq_refl)).
      rewrite payloads_app, <- app_assoc, IH, app_assoc, Hone.
      now rewrite map_app, app_assoc.
    + rewrite Hone. reflexivity.
    + rewrite Hone. reflexivity.
Qed.

Lemma Settled_NewGotifyPluginInstance : Settled NewGotifyPluginInstance.
Proof. split; [apply Inv_NewGotifyPluginInstance | discriminate]. Qed.

Lemma no_message_lost_repeated_or_reordered_witness :
  let h : MessageHandler :=
    fun m => if String.eqb (msg_Title m) "spam" then Some "rejected" else None in
  let msg := fun text title => mkMessage text title 0 [] in
  let steps :=
    [StepCall (CallValidateAndSetConfig (AnyConfigPtr (Some DefaultConfig)));
     StepCall (CallSetMessageHandler (Some h));
     StepCall (CallRequest (Some (msg "a" "")));
     StepCall (CallEnable (Some "connection refused"));
     StepCall (CallRequest (Some (msg "b" "")));
     StepCall (CallRequest (Some (msg "x" "spam")));
     StepCall (CallEnable None);
     StepCall (CallRequest (Some (msg "c" "")));
     StepLinkDown;
     StepCall (CallRequest (Some (msg "d" "")));
     StepCall (CallRequest None)] in
  Settled NewGotifyPluginInstance
  /\ payloads (events_of (play steps NewGotifyPluginInstance))
       ++ map msg_Message (messageQueue (state_of (play steps NewGotifyPluginInstance)))
     = map msg_Message (messageQueue NewGotifyPluginInstance)
       ++ map msg_Message (accepted steps NewGotifyPluginInstance)
  /\ payloads (events_of (play steps NewGotifyPluginInstance)) = ["a"; "b"; "c"]
  /\ map msg_Message (messageQueue (state_of (play steps NewGotifyPluginInstance)))
     = ["d"].
Proof.
  intros h msg steps.
  split; [exact Settled_NewGotifyPluginInstance|].
  split; [|split; reflexivity].
  exact (no_message_lost_repeated_or_reordered steps NewGotifyPluginInstance
           Settled_NewGotifyPluginInstance).
Defined.

(** The configuration after one step is the one before, unless the step
    is a [ValidateAndSetConfig] with a valid configuration. *)
Lemma do_step_config (st : Step) (p : MQTTPlugin) :
  config (state_of (do_step st p)) = config p
  \/ (exists cfg,
        st = StepCall (CallValidateAndSetConfig (AnyConfigPtr (Some cfg)))
        /\ valid_config cfg = true
        /\ config (state_of (do_step st p)) = Some cfg).
Proof.
  destruct st as [[conf|connect| |h|base|body|location]|];
    cbn [do_step perform]; unfold guarded.
  - destruct conf as [|[cfg|]|str|z]; try (left; reflexivity).
    rewrite ValidateAndSetConfig_config.
    destruct (valid_config cfg) eqn:Hv.
    + right. exists cfg. repeat split. now destruct p.
    + left. reflexivity.
  - left. destruct (config p) as [c|] eqn:Hc.
    + destruct connect as [e|].
      * rewrite (Enable_failure p c e Hc). now destruct p.
      * destruct (mu p) eqn:Hmu.
        -- rewrite (Enable_locked p c Hc Hmu). now destruct p.
        -- rewrite (Enable_success p c Hc Hmu). now destruct p.
    + now rewrite (Enable_no_config p connect Hc).
  - left. destruct (Disable_frame p) as (_ & Hc & _).
    destruct (Disable p) as [[[a|w|] p1] e1]; exact Hc.
  - left. now destruct p.
  - left. now destruct p.
  - left. destruct body as [msg|]; [|reflexivity].
    destruct p as [cfg mh cl bp le q m].
    unfold_ops; simpl.
    destruct mh as [h|]; [simpl|reflexivity].
    destruct (h msg); [reflexivity|simpl].
    destruct m; [reflexivity|simpl].
    destruct cl as [[o [|]]|]; simpl; try reflexivity.
    destruct cfg; reflexivity.
  - left. destruct location as [loc|].
    + now rewrite GetDisplay_returns.
    + reflexivity.
  - left. unfold link_down, bind, gets, modify, ret.
    destruct (mqttClient p) eqn:Hcl; now destruct p.
Qed.

Lemma play_state_cons (st : Step) (rest : list Step) (p : MQTTPlugin) :
  state_of (play (st :: rest) p) = state_of (do_step st p)
  \/ state_of (play (st :: rest) p) = state_of (play rest (state_of (do_step st p))).
Proof.
  rewrite play_cons.
  destruct (do_step st p) as [[[u|w|] p1] e1]; cbn [state_of fst snd];
    [right | left | left]; reflexivity.
Qed.

(** X2. Whatever the host calls and in whatever order, the configuration
    the plugin holds is never an invalid one, and once a configuration is
    installed the plugin is never without one again: a rejected
    [ValidateAndSetConfig] keeps the old configuration, and no other
    method writes the field. *)
Theorem installed_config_stays_valid (steps : list Step) :
  forall p : MQTTPlugin,
    config_ok p ->
    config_ok (state_of (play steps p))
    /\ (config p <> None -> config (state_of (play steps p)) <> None).
Proof.
  assert (Hstep : forall st p,
             config_ok p ->
             config_ok (state_of (do_step st p))
             /\ (config p <> None -> config (state_of (do_step st p)) <> None)).
  { intros st p Hok.
    destruct (do_step_config st p) as [Heq | (cfg & _ & Hv & Heq)].
    - unfold config_ok. rewrite Heq. split; [exact Hok | trivial].
    - unfold config_ok. rewrite Heq. split; [exact Hv | discriminate]. }
  induction steps as [|st rest IH]; intros p Hok.
  - split; [exact Hok | trivial].
  - destruct (Hstep st p Hok) as [Hok1 Hsome1].
    destruct (play_state_cons st rest p) as [-> | ->].
    + split; assumption.
    + destruct (IH _ Hok1) as [Hok2 Hsome2].
      split; [exact Hok2 | intros Hc; apply Hsome2, Hsome1, Hc].
Qed.

Lemma installed_config_stays_valid_witness :
  let bad := mkConfig "broker.local" 1883 "" "" 0 "t" 60 false in
  let steps :=
    [StepCall (CallValidateAndSetConfig (AnyConfigPtr (Some DefaultConfig)));
     StepCall (CallEnable None);
     StepCall (CallValidateAndSetConfig (AnyConfigPtr (Some bad)));
     StepCall (CallValidateAndSetConfig (AnyString "junk"));
     StepCall CallDisable] in
  config_ok (state_of (play steps NewGotifyPluginInstance))
  /\ config (state_of (play steps NewGotifyPluginInstance)) = Some DefaultConfig.
Proof.
  intros bad steps.
  destruct (installed_config_stays_valid steps NewGotifyPluginInstance I)
    as [Hok _].
  split; [exact Hok | reflexivity].
Defined.

(** A permitted step from a state that satisfies [Inv] returns. *)
Lemma do_step_returns (st : Step) (p : MQTTPlugin) :
  Inv p -> permitted st p ->
  exists p1 e1, do_step st p = (Returned tt, p1, e1) /\ Inv p1.
Proof.
  intros HI Hperm. pose proof HI as [Hmu Hcfg].
  destruct st as [[conf|connect| |h|base|body|location]|];
    cbn [do_step perform permitted] in *; unfold guarded.
  - destruct Hperm as [cfg ->]. rewrite ValidateAndSetConfig_config.
    destruct (valid_config cfg).
    + eexists _, _. split; [reflexivity|].
      destruct p; split; [exact Hmu | discriminate].
    + eexists _, _. split; [reflexivity | exact HI].
  - destruct (config p) as [c|] eqn:Hc; [|now contradiction Hperm].
    destruct connect as [e|].
    + rewrite (Enable_failure p c e Hc). eexists _, _. split; [reflexivity|].
      destruct p; simpl in *. split; [exact Hmu | now rewrite Hc].
    + rewrite (Enable_success p c Hc Hmu). eexists _, _. split; [reflexivity|].
      destruct p; simpl in *. split; [exact Hmu | now rewrite Hc].
  - destruct (mqttClient p) as [cl|] eqn:Hcl; [|now contradiction Hperm].
    rewrite (Disable_client p cl Hcl). eexists _, _. split; [reflexivity|].
    destruct p; simpl in *. split; [exact Hmu|].
    intros _. apply Hcfg. discriminate.
  - eexists _, _. split; [reflexivity|]. destruct p; exact HI.
  - eexists _, _. split; [reflexivity|]. destruct p; exact HI.
  - destruct (completes_webhookHandler p body HI Hperm) as (a & p1 & e1 & -> & HI1).
    now exists p1, e1.
  - destruct location as [loc|]; [|now contradiction Hperm].
    rewrite GetDisplay_returns. eexists _, _. split; [reflexivity | exact HI].
  - unfold link_down, bind, gets, modify, ret.
    destruct (mqttClient p) as [cl|] eqn:Hcl.
    + eexists _, _. split; [reflexivity|].
      destruct p; simpl in *. split; [exact Hmu|].
      intros _. apply Hcfg. discriminate.
    + eexists _, _. split; [reflexivity | exact HI].
Qed.

(** X3. A run in which the host keeps to the plugin API at every step
    (a [*MQTTConfig] for [ValidateAndSetConfig], [Enable] only with a
    configuration installed, [Disable] only once a client handle exists,
    requests only once the message handler is set, a non-nil location
    for [GetDisplay]) runs to its end: no call panics, none is left
    waiting for the mutex, and the mutex is free afterwards. *)
Theorem permitted_runs_complete (steps : list Step) :
  forall p : MQTTPlugin,
    Inv p -> all_permitted steps p ->
    result_of (play steps p) = Returned tt
    /\ Inv (state_of (play steps p)).
Proof.
  induction steps as [|st rest IH]; intros p HI Hall.
  - split; [reflexivity | exact HI].
  - destruct Hall as [Hperm Hrest].
    destruct (do_step_returns st p HI Hperm) as (p1 & e1 & Hs & HI1).
    rewrite play_cons. rewrite Hs in *.
    cbn [result_of state_of events_of fst snd] in *.
    exact (IH p1 HI1 Hrest).
Qed.

Lemma permitted_runs_complete_witness :
  let h : MessageHandler := fun _ => None in
  let steps :=
    [StepCall (CallValidateAndSetConfig (AnyConfigPtr (Some DefaultConfig)));
     StepCall (CallSetMessageHandler (Some h));
     StepCall (CallRegisterWebhook "/plugin/1/custom/");
     StepCall (CallRequest (Some (mkMessage "a" "" 0 [])));
     StepCall (CallEnable (Some "timeout"));
     StepCall (CallGetDisplay (Some "http://hub"));
     StepCall (CallEnable None);
     StepCall CallDisable;
     StepCall (CallRequest None)] in
  result_of (play steps NewGotifyPluginInstance) = Returned tt
  /\ Inv (state_of (play steps NewGotifyPluginInstance)).
Proof.
  intros h steps.
  apply (permitted_runs_complete steps NewGotifyPluginInstance).
  - exact Inv_NewGotifyPluginInstance.
  - cbn. repeat split; try discriminate. now exists DefaultConfig.
Defined.

(** ** More on the webhook *)

Lemma sends_app (a b : list Event) : sends (a ++ b) = sends a ++ sends b.
Proof.
  induction a as [|e a IH]; [reflexivity|].
  destruct e; simpl; now rewrite IH.
Qed.

(** X4. The answer to a request depends on the request and on the hub
    alone: 400 when the body does not parse, 500 when the hub refuses the
    message, 200 otherwise, whatever the state of the broker link, of the
    queue or of the last error.  The hub is handed the message exactly
    once when the body parses and not at all when it does not, and
    nothing is published or queued for a request that is not answered
    200. *)
Theorem response_depends_on_hub_only (p : MQTTPlugin) (h : MessageHandler)
  (body : option Message) :
  Inv p -> msgHandler p = Some h ->
  let r := webhookHandler body p in
  result_of r = Returned (response_for h body)
  /\ sends (events_of r) = match body with Some m => [m] | None => [] end
  /\ (response_for h body <> ok200 ->
      state_of r = p /\ publishes (events_of r) = []).
Proof.
  intros HI Hh r. subst r. pose proof HI as [Hmu Hcfg].
  destruct body as [msg|]; [|repeat split].
  cbn [response_for]. destruct (h msg) as [e|] eqn:Hm.
  - rewrite (webhookHandler_delivery_error p h msg e Hh Hm). repeat split.
  - destruct (isConnected p) eqn:Hup.
    + destruct (Inv_config p HI Hup) as [c Hc].
      rewrite (webhookHandler_publish p h msg c Hh Hm Hmu Hup Hc).
      split; [reflexivity | split; [reflexivity|]].
      intros Hne. now contradiction Hne.
    + rewrite (webhookHandler_queue p h msg Hh Hm Hmu Hup).
      cbn [result_of state_of events_of fst snd].
      split; [reflexivity|]. split.
      * unfold queued_events, check_events.
        destruct (mqttClient p); reflexivity.
      * intros Hne. now contradiction Hne.
Qed.

Lemma response_depends_on_hub_only_witness :
  let h : MessageHandler :=
    fun m => if String.eqb (msg_Message m) "" then Some "empty message" else None in
  let p := mkPlugin (Some DefaultConfig) (Some h)
                    (connected_client DefaultConfig true) "" (Some "old error")
                    [] false in
  result_of (webhookHandler (Some (mkMessage "" "t" 0 [])) p) = Returned err500
  /\ state_of (webhookHandler (Some (mkMessage "" "t" 0 [])) p) = p.
Proof.
  intros h p.
  assert (HI : Inv p) by (split; [reflexivity | discriminate]).
  destruct (response_depends_on_hub_only p h (Some (mkMessage "" "t" 0 [])) HI eq_refl)
    as (Hr & _ & Hrest).
  split; [exact Hr|]. apply Hrest. discriminate.
Defined.

(** Requests served while the link is up are published one by one. *)
Lemma serve_publish (msgs : list Message) (p : MQTTPlugin) (h : MessageHandler)
  (c : MQTTConfig) :
  msgHandler p = Some h -> (forall m, In m msgs -> h m = None) ->
  mu p = false -> isConnected p = true -> config p = Some c ->
  serve (map Some msgs) p
  = (Returned (map (fun _ => ok200) msgs), p,
     List.concat (map (published_events c) msgs)).
Proof.
  intros Hh Hall Hmu Hup Hc.
  induction msgs as [|m msgs IH]; [reflexivity|].
  cbn [serve map]. unfold bind at 1.
  rewrite (webhookHandler_publish p h m c Hh (Hall m (or_introl eq_refl)) Hmu Hup Hc).
  unfold bind at 1. rewrite IH by (intros m' Hin; apply Hall; now right).
  unfold ret. cbn [List.concat map]. now rewrite app_nil_r.
Qed.

Lemma publishes_published_events (c : MQTTConfig) (msgs : list Message) :
  publishes (List.concat (map (published_events c) msgs)) = map (publish_of c) msgs.
Proof.
  induction msgs as [|m msgs IH]; [reflexivity|].
  cbn [List.concat map]. rewrite publishes_app, IH. reflexivity.
Qed.

(** X5. After an [Enable] whose connect succeeds, every message the hub
    accepts is published at once, in arrival order, one [Publish] each,
    each inside its own [Lock]/[Unlock]; the queue stays empty and all
    requests are answered 200. *)
Theorem connected_requests_published_in_order (p : MQTTPlugin) (c : MQTTConfig)
  (h : MessageHandler) (msgs : list Message) :
  config p = Some c -> mu p = false ->
  msgHandler p = Some h -> (forall m, In m msgs -> h m = None) ->
  let p1 := state_of (Enable None p) in
  let r := serve (map Some msgs) p1 in
  result_of r = Returned (map (fun _ => ok200) msgs)
  /\ events_of r = List.concat (map (published_events c) msgs)
  /\ publishes (events_of r) = map (publish_of c) msgs
  /\ state_of r = p1
  /\ messageQueue (state_of r) = [].
Proof.
  intros Hc Hmu Hh Hall p1 r.
  assert (E1 : p1 = set_messageQueue []
                      (set_mqttClient (connected_client c true) p)).
  { subst p1. now rewrite (Enable_success p c Hc Hmu). }
  assert (E : r = (Returned (map (fun _ => ok200) msgs), p1,
                   List.concat (map (published_events c) msgs))).
  { subst r. apply serve_publish with (h := h); rewrite ?E1; assumption || reflexivity. }
  rewrite E. cbn [result_of state_of events_of fst snd].
  repeat split.
  - apply publishes_published_events.
  - now rewrite E1.
Qed.

Lemma connected_requests_published_in_order_witness :
  let h : MessageHandler := fun _ => None in
  let p := mkPlugin (Some DefaultConfig) (Some h) None "" None
                    [mkMessage "old" "" 0 []] false in
  let a := mkMessage "one" "" 0 [] in
  let b := mkMessage "two" "" 0 [] in
  publishes (events_of (serve (map Some [a; b]) (state_of (Enable None p))))
  = [EvPublish "gotify/messages" 0 false "one";
     EvPublish "gotify/messages" 0 false "two"]
  /\ messageQueue (state_of (serve (map Some [a; b]) (state_of (Enable None p)))) = [].
Proof.
  intros h p a b.
  destruct (connected_requests_published_in_order p DefaultConfig h [a; b])
    as (_ & _ & Hpub & _ & Hq); try reflexivity.
  split; assumption.
Defined.

(** X6. After [Disable] the plugin forwards nothing: every message the
    hub accepts from then on is appended to the queue, behind what is
    already there, and answered 200, also when the link was up before. *)
Theorem disabled_plugin_queues (p : MQTTPlugin) (cl : Client)
  (h : MessageHandler) (msgs : list Message) :
  mqttClient p = Some cl -> mu p = false ->
  msgHandler p = Some h -> (forall m, In m msgs -> h m = None) ->
  let p1 := state_of (Disable p) in
  let r := serve (map Some msgs) p1 in
  result_of (Disable p) = Returned None
  /\ result_of r = Returned (map (fun _ => ok200) msgs)
  /\ publishes (events_of r) = []
  /\ messageQueue (state_of r) = messageQueue p ++ msgs.
Proof.
  intros Hcl Hmu Hh Hall p1 r.
  assert (E1 : Disable p
               = (Returned None,
                  set_mqttClient (Some (mkClient (client_opts cl) false)) p,
                  [EvDisconnect 250])) by now apply Disable_client.
  assert (E : r = (Returned (map (fun _ => ok200) msgs),
                   set_messageQueue (messageQueue p1 ++ msgs) p1,
                   List.concat (map (queued_events p1) msgs))).
  { subst r p1. rewrite E1. cbn [state_of fst snd].
    apply serve_queue with (h := h); assumption || reflexivity. }
  rewrite E. subst p1. rewrite E1. cbn [result_of state_of events_of fst snd].
  repeat split. apply publishes_queued_events.
Qed.

Lemma disabled_plugin_queues_witness :
  let h : MessageHandler := fun _ => None in
  let p := mkPlugin (Some DefaultConfig) (Some h)
                    (connected_client DefaultConfig true) "" None [] false in
  let a := mkMessage "one" "" 0 [] in
  publishes (events_of (serve (map Some [a]) (state_of (Disable p)))) = []
  /\ messageQueue (state_of (serve (map Some [a]) (state_of (Disable p)))) = [a].
Proof.
  intros h p a.
  destruct (disabled_plugin_queues p (mkClient (client_options DefaultConfig) true)
              h [a])
    as (_ & _ & Hpub & Hq); try reflexivity.
  split; assumption.
Defined.

(** ** Configuration changes *)

Lemma publish_of_no_connect (c : MQTTConfig) (q : list Message) :
  filter is_disconnect (map (publish_of c) q) = []
  /\ filter is_connect (map (publish_of c) q) = [].
Proof.
  induction q as [|m q [IH1 IH2]]; split; try reflexivity; assumption.
Qed.

(** X7. A new valid configuration takes effect on the very next publish:
    a message accepted while the link is up goes out under the topic, QoS
    and retain flag of the new configuration.  The client handle is not
    touched: it keeps the broker address, user, password and keep-alive
    it was created with, and its link, until the next [Enable]. *)
Theorem new_config_applies_to_next_publish (p : MQTTPlugin) (cfg' : MQTTConfig)
  (h : MessageHandler) (msg : Message) :
  Inv p -> isConnected p = true ->
  msgHandler p = Some h -> h msg = None ->
  valid_config cfg' = true ->
  let p1 := state_of (ValidateAndSetConfig (AnyConfigPtr (Some cfg')) p) in
  let r := webhookHandler (Some msg) p1 in
  mqttClient p1 = mqttClient p
  /\ result_of r = Returned ok200
  /\ publishes (events_of r)
     = [EvPublish (Topic cfg') (QoS cfg') (Retain cfg') (msg_Message msg)].
Proof.
  intros [Hmu Hcfg] Hup Hh Hm Hv p1 r.
  assert (E1 : p1 = set_config (Some cfg') p).
  { subst p1. rewrite ValidateAndSetConfig_config, Hv. reflexivity. }
  assert (E : r = (Returned ok200, p1, published_events cfg' msg)).
  { subst r. unfold published_events.
    apply webhookHandler_publish with (h := h); rewrite ?E1; assumption || reflexivity. }
  rewrite E, E1. repeat split.
Qed.

Lemma new_config_applies_to_next_publish_witness :
  let h : MessageHandler := fun _ => None in
  let p := mkPlugin (Some DefaultConfig) (Some h)
                    (connected_client DefaultConfig true) "" None [] false in
  let cfg' := mkConfig "10.0.0.5" 8883 "u" "pw" 1 "alerts" 30 true in
  let p1 := state_of (ValidateAndSetConfig (AnyConfigPtr (Some cfg')) p) in
  opt_Servers (client_options DefaultConfig) = ["127.0.0.1:1883"]
  /\ mqttClient p1 = connected_client DefaultConfig true
  /\ publishes (events_of (webhookHandler (Some (mkMessage "hi" "" 0 [])) p1))
     = [EvPublish "alerts" 1 true "hi"].
Proof.
  intros h p cfg' p1.
  assert (HI : Inv p) by (split; [reflexivity | discriminate]).
  destruct (new_config_applies_to_next_publish p cfg' h (mkMessage "hi" "" 0 [])
              HI eq_refl eq_refl eq_refl eq_refl)
    as (Hcl & _ & Hpub).
  split; [reflexivity | split; [exact Hcl | exact Hpub]].
Defined.

(** X8. Queued messages are published under the configuration installed
    when the queue is drained, not the one in force when they arrived:
    after a new valid configuration, the next successful [Enable]
    connects with the options of the new configuration and publishes the
    whole queue under its topic, QoS and retain flag. *)
Theorem queue_drained_under_current_config (p : MQTTPlugin) (cfg' : MQTTConfig) :
  mu p = false -> valid_config cfg' = true ->
  let p1 := state_of (ValidateAndSetConfig (AnyConfigPtr (Some cfg')) p) in
  let r := Enable None p1 in
  messageQueue p1 = messageQueue p
  /\ result_of r = Returned None
  /\ filter is_connect (events_of r) = [EvConnect (client_options cfg') None]
  /\ publishes (events_of r) = map (publish_of cfg') (messageQueue p)
  /\ mqttClient (state_of r) = connected_client cfg' true.
Proof.
  intros Hmu Hv p1 r.
  assert (E1 : p1 = set_config (Some cfg') p).
  { subst p1. rewrite ValidateAndSetConfig_config, Hv. reflexivity. }
  assert (E : r = (Returned None,
                   set_messageQueue [] (set_mqttClient (connected_client cfg' true) p1),
                   [EvConnect (client_options cfg') None; EvLock]
                     ++ map (publish_of cfg') (messageQueue p1)
                     ++ [EvUnlock; EvLog "Successfully connected to MQTT Broker"])).
  { subst r. apply Enable_success; rewrite E1; assumption || reflexivity. }
  rewrite E. cbn [result_of state_of events_of fst snd].
  assert (Hq : messageQueue p1 = messageQueue p) by now rewrite E1.
  rewrite Hq. repeat split.
  - cbn [app filter is_connect]. rewrite filter_app.
    destruct (publish_of_no_connect cfg' (messageQueue p)) as [_ Hnone].
    rewrite Hnone. reflexivity.
  - rewrite !publishes_app, publishes_map_publish_of. simpl. now rewrite app_nil_r.
Qed.

Lemma queue_drained_under_current_config_witness :
  let p := mkPlugin (Some DefaultConfig) None None "" None
                    [mkMessage "one" "" 0 []; mkMessage "two" "" 0 []] false in
  let cfg' := mkConfig "10.0.0.5" 8883 "u" "pw" 2 "alerts" 30 true in
  let p1 := state_of (ValidateAndSetConfig (AnyConfigPtr (Some cfg')) p) in
  publishes (events_of (Enable None p1))
  = [EvPublish "alerts" 2 true "one"; EvPublish "alerts" 2 true "two"].
Proof.
  intros p cfg' p1.
  destruct (queue_drained_under_current_config p cfg' eq_refl eq_refl)
    as (_ & _ & _ & Hpub & _).
  exact Hpub.
Defined.

(** ** What reaches the broker *)

(** X9. Only the text of a message reaches the broker: title, priority
    and extras are dropped.  Two queues whose messages have the same
    texts in the same order are drained with exactly the same calls. *)
Theorem only_message_text_is_forwarded (p : MQTTPlugin) (c : MQTTConfig)
  (q q' : list Message) :
  config p = Some c -> mu p = false ->
  map msg_Message q = map msg_Message q' ->
  events_of (Enable None (set_messageQueue q p))
  = events_of (Enable None (set_messageQueue q' p))
  /\ payloads (events_of (Enable None (set_messageQueue q p))) = map msg_Message q.
Proof.
  intros Hc Hmu Htexts.
  assert (Hmap : forall l : list Message,
             map (publish_of c) l
             = map (EvPublish (Topic c) (QoS c) (Retain c)) (map msg_Message l)).
  { intros l. rewrite map_map. reflexivity. }
  rewrite (Enable_success (set_messageQueue q p) c Hc Hmu).
  rewrite (Enable_success (set_messageQueue q' p) c Hc Hmu).
  cbn [events_of snd]. split.
  - change (messageQueue (set_messageQueue q p)) with q.
    change (messageQueue (set_messageQueue q' p)) with q'.
    now rewrite (Hmap q), (Hmap q'), Htexts.
  - change (messageQueue (set_messageQueue q p)) with q.
    cbn [app payloads]. rewrite payloads_app, payloads_publish_of.
    simpl. now rewrite app_nil_r.
Qed.

Lemma only_message_text_is_forwarded_witness :
  let p := mkPlugin (Some DefaultConfig) None None "" None [] false in
  let q := [mkMessage "disk full" "Alert" 9 [("client::display", "markdown")]] in
  let q' := [mkMessage "disk full" "" 0 []] in
  events_of (Enable None (set_messageQueue q p))
  = events_of (Enable None (set_messageQueue q' p)).
Proof.
  intros p q q'.
  destruct (only_message_text_is_forwarded p DefaultConfig q q' eq_refl eq_refl eq_refl)
    as [Hsame _].
  exact Hsame.
Defined.

(** ** The client handle *)

(** X10. Every [Enable] that gets as far as connecting makes a new client
    handle from the configuration installed at that moment and dials
    once; it never calls [Disconnect], so a handle that was connected
    before is dropped with its link still up.  The new handle is
    connected exactly when the connect succeeded. *)
Theorem enable_replaces_handle_without_disconnect (p : MQTTPlugin) (c : MQTTConfig)
  (connect : error) :
  config p = Some c -> mu p = false ->
  let r := Enable connect p in
  mqttClient (state_of r)
  = connected_client c (match connect with None => true | Some _ => false end)
  /\ filter is_disconnect (events_of r) = []
  /\ filter is_connect (events_of r) = [EvConnect (client_options c) connect].
Proof.
  intros Hc Hmu r. subst r.
  pose proof (publish_of_no_connect c) as Hnone.
  destruct connect as [e|].
  - rewrite (Enable_failure p c e Hc). repeat split.
  - rewrite (Enable_success p c Hc Hmu).
    cbn [state_of events_of fst snd].
    destruct (Hnone (messageQueue p)) as [Hd Hcn].
    split; [now destruct p|].
    split.
    + cbn [app filter is_disconnect]. rewrite filter_app, Hd. reflexivity.
    + cbn [app filter is_connect]. rewrite filter_app, Hcn. reflexivity.
Qed.

Lemma enable_replaces_handle_without_disconnect_witness :
  let old := Some (mkClient (mkOptions ["10.9.9.9:1883"] "old" "old" 5) true) in
  let p := mkPlugin (Some DefaultConfig) None old "" None [] false in
  mqttClient (state_of (Enable None p)) = connected_client DefaultConfig true
  /\ filter is_disconnect (events_of (Enable None p)) = [].
Proof.
  intros old p.
  destruct (enable_replaces_handle_without_disconnect p DefaultConfig None
              eq_refl eq_refl)
    as (Hcl & Hd & _).
  split; assumption.
Defined.

(** X11. The keep-alive reaches the client unchanged as long as its
    nanoseconds fit the 64-bit [time.Duration]: for 0 to 9223372036
    seconds the duration handed to [SetKeepAlive] is the configured
    number of seconds times 10^9 and the client keeps exactly these
    seconds.  One second more is still a valid configuration, but the
    multiplication wraps around and the duration is negative. *)
Theorem keepAlive_passed_unchanged_below_overflow :
  (forall c : MQTTConfig,
      0 <= KeepAlive c <= 9223372036 ->
      keepAlive_duration (KeepAlive c) = KeepAlive c * 1000000000
      /\ opt_KeepAlive (client_options c) = KeepAlive c)
  /\ (forall c : MQTTConfig,
         KeepAlive c = 9223372037 ->
         keepAlive_duration (KeepAlive c) = -9223372036709551616
         /\ (valid_config c = true <->
             valid_config (mkConfig (IP c) (Port c) (Username c) (Password c)
                                    (QoS c) (Topic c) 60 (Retain c)) = true)).
Proof.
  split.
  - intros c Hk.
    assert (Hd : keepAlive_duration (KeepAlive c) = KeepAlive c * 1000000000).
    { unfold keepAlive_duration, wrap64.
      rewrite Z.mod_small by lia. lia. }
    split; [exact Hd|].
    unfold client_options, keepAlive_seconds. cbn [opt_KeepAlive].
    fold (keepAlive_duration (KeepAlive c)). rewrite Hd.
    apply Z.quot_mul. lia.
  - intros c Hk. rewrite Hk. split; [reflexivity|].
    unfold valid_config. cbn [IP Port KeepAlive]. rewrite Hk. reflexivity.
Qed.

Lemma keepAlive_passed_unchanged_below_overflow_witness :
  opt_KeepAlive (client_options DefaultConfig) = 60
  /\ keepAlive_duration 9223372037 = -9223372036709551616.
Proof.
  destruct keepAlive_passed_unchanged_below_overflow as [Hfit Hwrap].
  split.
  - apply (Hfit DefaultConfig). simpl. lia.
  - apply (Hwrap (mkConfig "10.0.0.5" 1883 "" "" 0 "t" 9223372037 false)).
    reflexivity.
Defined.

(** ** The display *)

(** X12. The error of a failed connect is what the user sees next:
    after an [Enable] whose connect failed with [e], [GetDisplay] returns
    the text "Error: Failed to connect to MQTT Broker: e", an empty line,
    and the usage sentence built from the location and the registered
    base path.  [GetDisplay] itself changes nothing and calls nobody. *)
Theorem failed_connect_is_displayed (p : MQTTPlugin) (c : MQTTConfig)
  (e loc base : string) :
  config p = Some c ->
  let p1 := state_of (RegisterWebhook base p) in
  let p2 := state_of (Enable (Some e) p1) in
  GetDisplay (Some loc) p2
  = (Returned (display_with_error (connect_failure e) loc base), p2, []).
Proof.
  intros Hc p1 p2.
  assert (E : p2 = set_lastError (Some (connect_failure e))
                     (set_mqttClient (connected_client c false) p1)).
  { subst p2. rewrite (Enable_failure p1 c e); [reflexivity|].
    subst p1. destruct p; exact Hc. }
  rewrite GetDisplay_returns, E. subst p1. destruct p; reflexivity.
Qed.

Lemma failed_connect_is_displayed_witness :
  let p := set_config (Some DefaultConfig) NewGotifyPluginInstance in
  result_of
    (GetDisplay (Some "https://hub.example")
       (state_of (Enable (Some "i/o timeout")
                    (state_of (RegisterWebhook "/plugin/1/custom/abc/" p)))))
  = Returned
      ("Error: Failed to connect to MQTT Broker: i/o timeout"
       ++ String "010" (String "010" "")
       ++ "Send messages to https://hub.example/plugin/1/custom/abc/message to forward them to MQTT.")%string.
Proof.
  intros p.
  rewrite (failed_connect_is_displayed p DefaultConfig "i/o timeout"
             "https://hub.example" "/plugin/1/custom/abc/" eq_refl).
  reflexivity.
Defined.

(** ** Addresses *)

Lemma ParseIP_scan_no_separator (whole rest : string) :
  has_dot_or_colon rest = false -> net.ParseIP_scan whole rest = None.
Proof.
  induction rest as [|ch rest IH]; intros H; [reflexivity|].
  cbn [has_dot_or_colon] in H. cbn [net.ParseIP_scan].
  destruct (Ascii.eqb ch "."); [discriminate|].
  destruct (Ascii.eqb ch ":"); [discriminate|].
  apply IH. exact H.
Qed.

(** X13. The broker must be given as an address literal: an IP field
    without any dot or colon (a bare host name such as localhost, or the
    empty string) is rejected with the error "invalid IP address: ..."
    whatever the other fields are, and the instance is left untouched. *)
Theorem host_name_is_rejected (cfg : MQTTConfig) (p : MQTTPlugin) :
  has_dot_or_colon (IP cfg) = false ->
  ValidateAndSetConfig (AnyConfigPtr (Some cfg)) p
  = (Returned (Some ("invalid IP address: " ++ IP cfg)%string), p, []).
Proof.
  intros H.
  unfold ValidateAndSetConfig, bind, deref, ret. cbn.
  unfold net.ParseIP. now rewrite (ParseIP_scan_no_separator (IP cfg) (IP cfg) H).
Qed.

Lemma host_name_is_rejected_witness :
  ValidateAndSetConfig
    (AnyConfigPtr (Some (mkConfig "localhost" 1883 "" "" 0 "t" 60 false)))
    NewGotifyPluginInstance
  = (Returned (Some "invalid IP address: localhost"), NewGotifyPluginInstance, []).
Proof.
  apply (host_name_is_rejected (mkConfig "localhost" 1883 "" "" 0 "t" 60 false)
           NewGotifyPluginInstance).
  reflexivity.
Defined.

(** The parser on one decimal field, for each of the 256 values. *)
Ltac each_octet n :=
  do 256 (destruct n as [|n]; [reflexivity|]); lia.

Lemma octet_nat (a : Z) : 0 <= a <= 255 -> exists n : nat, (n < 256)%nat /\ a = Z.of_nat n.
Proof. intros H. exists (Z.to_nat a). split; lia. Qed.

Lemma parseIPv4_first_field (n : nat) (k : nat) (r : string) (p : list Z) :
  (n < 256)%nat ->
  net.parseIPv4_loop (S k) 0 (fmt_d (Z.of_nat n) ++ String "." r) p
  = net.parseIPv4_loop k 1 (String "." r) (p ++ [Z.of_nat n]).
Proof. intros H. each_octet n. Qed.

Lemma parseIPv4_next_field (n : nat) (k i : nat) (r : string) (p : list Z) :
  (n < 256)%nat ->
  net.parseIPv4_loop (S k) (S i) (String "." (fmt_d (Z.of_nat n) ++ String "." r)) p
  = net.parseIPv4_loop k (S (S i)) (String "." r) (p ++ [Z.of_nat n]).
Proof. intros H. each_octet n. Qed.

Lemma parseIPv4_last_field (n : nat) (k i : nat) (p : list Z) :
  (n < 256)%nat ->
  net.parseIPv4_loop (S k) (S i) (String "." (fmt_d (Z.of_nat n))) p
  = net.parseIPv4_loop k (S (S i)) "" (p ++ [Z.of_nat n]).
Proof. intros H. each_octet n. Qed.

Lemma ParseIP_scan_first_dot (n : nat) (whole r : string) :
  (n < 256)%nat ->
  net.ParseIP_scan whole (fmt_d (Z.of_nat n) ++ String "." r) = net.parseIPv4 whole.
Proof. intros H. each_octet n. Qed.

Lemma ParseIP_dotted_quad (a b c d : Z) :
  0 <= a <= 255 -> 0 <= b <= 255 -> 0 <= c <= 255 -> 0 <= d <= 255 ->
  net.ParseIP (dotted a b c d) = Some (net.v4InV6Prefix ++ [a; b; c; d]).
Proof.
  intros Ha Hb Hc Hd.
  destruct (octet_nat a Ha) as (na & Hna & ->).
  destruct (octet_nat b Hb) as (nb & Hnb & ->).
  destruct (octet_nat c Hc) as (nc & Hnc & ->).
  destruct (octet_nat d Hd) as (nd & Hnd & ->).
  unfold net.ParseIP, dotted.
  rewrite (ParseIP_scan_first_dot na _ _ Hna).
  unfold net.parseIPv4, net.IPv4len.
  rewrite (parseIPv4_first_field na _ _ _ Hna).
  rewrite (parseIPv4_next_field nb _ _ _ _ Hnb).
  rewrite (parseIPv4_next_field nc _ _ _ _ Hnc).
  rewrite (parseIPv4_last_field nd _ _ _ Hnd).
  reflexivity.
Qed.

(** X14. Every IPv4 address written as four decimal numbers from 0 to
    255 without leading zeros and separated by dots passes the IP check;
    with a port from 1 to 65535 and a keep-alive that is not negative
    the configuration is installed, whatever its other fields are. *)
Theorem dotted_quad_is_accepted (cfg : MQTTConfig) (p : MQTTPlugin) (a b c d : Z) :
  0 <= a <= 255 -> 0 <= b <= 255 -> 0 <= c <= 255 -> 0 <= d <= 255 ->
  IP cfg = dotted a b c d ->
  1 <= Port cfg <= 65535 -> 0 <= KeepAlive cfg ->
  ValidateAndSetConfig (AnyConfigPtr (Some cfg)) p
  = (Returned None, set_config (Some cfg) p, []).
Proof.
  intros Ha Hb Hc Hd Hip Hport Hk.
  rewrite ValidateAndSetConfig_config.
  assert (Hv : valid_config cfg = true).
  { unfold valid_config. rewrite Hip, (ParseIP_dotted_quad a b c d Ha Hb Hc Hd).
    cbn [andb].
    destruct (Z.leb_spec 1 (Port cfg)); [|lia].
    destruct (Z.leb_spec (Port cfg) 65535); [|lia].
    destruct (Z.leb_spec 0 (KeepAlive cfg)); [reflexivity | lia]. }
  now rewrite Hv.
Qed.

Lemma dotted_quad_is_accepted_witness :
  let cfg := mkConfig "192.168.1.20" 8883 "user" "secret" 1 "home/alerts" 0 true in
  ValidateAndSetConfig (AnyConfigPtr (Some cfg)) NewGotifyPluginInstance
  = (Returned None, set_config (Some cfg) NewGotifyPluginInstance, []).
Proof.
  intros cfg.
  apply (dotted_quad_is_accepted cfg NewGotifyPluginInstance 192 168 1 20);
    try reflexivity; simpl; lia.
Defined.

(** ** Progress under the mutex *)





(** ** A request that overlaps [Enable] *)

(** X16. The order of arrival is not kept when a request overlaps an
    [Enable]: [Enable] connects before it takes the mutex, so a handler
    that gets the mutex in between finds the link up and publishes its
    message at once, ahead of every older message still in the queue,
    which the drain publishes only afterwards.  For every queue, message
    and configuration there is such an interleaving. *)
Theorem overlapping_enable_can_reorder (c : MQTTConfig) (h : option MessageHandler)
  (opts : ClientOptions) (base : string) (e : error)
  (q : list Message) (m : Message) :
  let p := mkPlugin (Some c) h (Some (mkClient opts false)) base e q false in
  let p_end := mkPlugin (Some c) h (connected_client c true) base e [] false in
  exists evs : list Event,
    sys_steps (mkSystem p [WaitHandle m; WaitDrain]) evs
              (mkSystem p_end [Finished; Finished])
    /\ reachable (mkSystem p [WaitHandle m; WaitDrain])
    /\ payloads evs = msg_Message m :: map msg_Message q.
Proof.
  intros p p_end.
  set (up := connected_client c true).
  set (p1 := mkPlugin (Some c) h up base e q false).
  set (p2 := mkPlugin (Some c) h up base e q true).
  set (p3 := mkPlugin (Some c) h up base e [] true).
  assert (Hdrain : thread_step Draining p2
                   = (Returned Releasing, p3, map (publish_of c) q)).
  { subst p2 p3 up. unfold thread_step, drain, bind, gets, modify, ret.
    cbn [messageQueue].
    rewrite (forM_forwardToMQTT q _ c (mkClient (client_options c) true))
      by reflexivity.
    cbn. now rewrite !app_nil_r. }
  exists ([EvLock] ++ [EvIsConnected true] ++ [publish_of c m] ++ [EvUnlock]
            ++ [EvLock] ++ map (publish_of c) q ++ [EvUnlock] ++ []).
  split; [|split].
  - apply (steps_outside _ _ p1); [reflexivity | reflexivity |].
    apply (steps_thread _ _ 0 (WaitHandle m) (Testing m) p2 [EvLock]);
      [reflexivity | discriminate | reflexivity |].
    apply (steps_thread _ _ 0 (Testing m) (Acting m true) p2 [EvIsConnected true]);
      [reflexivity | discriminate | reflexivity |].
    apply (steps_thread _ _ 0 (Acting m true) Releasing p2 [publish_of c m]);
      [reflexivity | discriminate | reflexivity |].
    apply (steps_thread _ _ 0 Releasing Finished p1 [EvUnlock]);
      [reflexivity | discriminate | reflexivity |].
    apply (steps_thread _ _ 1 WaitDrain Draining p2 [EvLock]);
      [reflexivity | discriminate | reflexivity |].
    apply (steps_thread _ _ 1 Draining Releasing p3 (map (publish_of c) q));
      [reflexivity | discriminate | exact Hdrain |].
    apply (steps_thread _ _ 1 Releasing Finished p_end [EvUnlock]);
      [reflexivity | discriminate | reflexivity |].
    apply steps_done.
  - apply reach_init; [reflexivity | repeat constructor].
  - rewrite !payloads_app, payloads_publish_of. cbn. now rewrite app_nil_r.
Qed.
